(** * HybridDataStructure: a sharded accumulator store with a global counter

    Shallow embedding of the class [HybridDataStructure] of the benchmark
    script, run by one thread: every method is a function from the object
    to an outcome, the object afterwards and the lines it printed.

    - integers are Python's unbounded [int], here [Z]; [%] is Python's
      floored modulo, which is [Z.modulo] for a divisor that is not zero
      and raises [ZeroDivisionError] for zero;
    - a shard is a [dict] from keys to accumulators, here [gmap string Z];
      [local_data] and [local_locks] are Python lists, indexed the Python
      way (a negative index counts from the end, anything else out of
      range raises [IndexError]);
    - [lock_wait_time] is a binary64 float, here a primitive float (the
      constructor's [0] is an [int] until the first wait is added; it is
      the float zero here);
    - a lock is the flag "held"; [with lock:] acquires it, runs the block
      and releases it on every exit path;
    - [time.perf_counter()] is the environment's: the measured wait of a
      call is an argument of the embedded method;
    - [hash] is the interpreter's: a parameter of the development.

    The definitions come first: the class as the benchmark script has
    it, the vocabulary of the statements, and the first version of the
    class.  The proofs follow. *)

From Stdlib Require Import ZArith String List Lia.
From Stdlib Require Import Floats.PrimFloat.
From stdpp Require Import base option list gmap strings fin_maps pretty.

Local Open Scope Z_scope.

(** ** Python values that reach the methods *)

(** The arguments [value] and [increment] are arbitrary objects.  The
    model keeps the two kinds that matter for [+] against an [int]
    accumulator: an [int], which adds, and a [str], which raises
    [TypeError]. *)
Inductive pyval : Type :=
  | PInt (z : Z)
  | PStr (s : string).

Definition type_name (v : pyval) : string :=
  match v with
  | PInt _ => "int"
  | PStr _ => "str"
  end.

Definition int_of (v : pyval) : Z :=
  match v with
  | PInt z => z
  | PStr _ => 0
  end.

Inductive exn : Type :=
  | ZeroDivisionError
  | IndexError
  | TypeError (operator : string) (operand : string).

(** [str(e)] *)
Definition exn_message (e : exn) : string :=
  match e with
  | ZeroDivisionError => "integer modulo by zero"
  | IndexError => "list index out of range"
  | TypeError op operand =>
      "unsupported operand type(s) for " ++ op ++ ": 'int' and '" ++ operand ++ "'"
  end.

(** ** Outcomes and the method monad *)

(** A call returns, raises, or never comes back because it waits for a
    lock that is held ([threading.Lock] is not reentrant). *)
Inductive outcome (A : Type) : Type :=
  | Return (a : A)
  | Raise (e : exn)
  | Blocked.
Arguments Return {A} a.
Arguments Raise {A} e.
Arguments Blocked {A}.

(** What a call leaves: its outcome, the object (of type [S]) and the
    lines it printed. *)
Record result (S A : Type) : Type := mkResult {
  outcome_of : outcome A;
  final : S;
  printed : list string
}.
Arguments mkResult {S A} _ _ _.
Arguments outcome_of {S A} _.
Arguments final {S A} _.
Arguments printed {S A} _.

Definition M (S A : Type) : Type := S -> result S A.

Definition raise {S A} (e : exn) : M S A := fun s => mkResult (Raise e) s [].
Definition block {S A} : M S A := fun s => mkResult Blocked s [].

(** What was printed before [r] goes in front of what [r] printed. *)
Definition after {S A} (out : list string) (r : result S A) : result S A :=
  match r with
  | mkResult o s out' => mkResult o s (out ++ out')
  end.

#[export] Instance M_ret {S} : MRet (M S) := fun A a s => mkResult (Return a) s [].

(** Statement sequencing: the second statement runs only when the first
    returned. *)
#[export] Instance M_bind {S} : MBind (M S) := fun A B k m s =>
  match m s with
  | mkResult (Return a) s' out => after out (k a s')
  | mkResult (Raise e) s' out => mkResult (Raise e) s' out
  | mkResult Blocked s' out => mkResult Blocked s' out
  end.

Definition get {S} : M S S := fun s => mkResult (Return s) s [].
Definition modify {S} (f : S -> S) : M S unit :=
  fun s => mkResult (Return tt) (f s) [].
Definition print {S} (line : string) : M S unit :=
  fun s => mkResult (Return tt) s [line].

(** [try: body  except Exception as e: handler e] *)
Definition try_except {S A} (body : M S A) (handler : exn -> M S A) : M S A := fun s =>
  match body s with
  | mkResult (Raise e) s' out => after out (handler e s')
  | r => r
  end.

(** [finally]: the second block runs on return and on raise alike, and
    the first block's outcome stands. *)
Definition finally {S A} (body : M S A) (cleanup : M S unit) : M S A := fun s =>
  match body s with
  | mkResult Blocked s' out => mkResult Blocked s' out
  | mkResult o s' out =>
      match cleanup s' with
      | mkResult _ s'' out' => mkResult o s'' (out ++ out')
      end
  end.

(** ** The object *)

Record HybridDataStructure : Type := mkHybridDataStructure {
  num_shards : Z;
  local_locks : list bool;
  local_data : list (gmap string Z);
  global_lock : bool;
  global_counter : Z;
  local_reads : Z;
  local_writes : Z;
  lock_wait_time : float;
  write_conflicts : Z
}.

(** A method of the class: a computation on the object. *)
Abbreviation Method := (M HybridDataStructure).

(** ** Python list indexing and integer addition *)

(** The position of index [i] in a list of [len] items: [0 .. len-1] as
    they are, [-len .. -1] from the end, nothing else. *)
Definition py_position (len : nat) (i : Z) : option nat :=
  if bool_decide (0 <= i < Z.of_nat len) then Some (Z.to_nat i)
  else if bool_decide (- Z.of_nat len <= i < 0) then Some (Z.to_nat (Z.of_nat len + i))
  else None.

(** [l[i]] *)
Definition py_getitem {S A} (l : list A) (i : Z) : M S A :=
  match py_position (length l) i with
  | Some p =>
      match l !! p with
      | Some x => mret x
      | None => raise IndexError
      end
  | None => raise IndexError
  end.

(** [acc + v] with [acc] an [int]; [op] is the operator named in the
    message, ["+"] or ["+="]. *)
Definition py_add {S} (op : string) (acc : Z) (v : pyval) : M S Z :=
  match v with
  | PInt z => mret (acc + z)
  | PStr _ => raise (TypeError op (type_name v))
  end.

(** ** Field updates *)

Definition set_local_locks (f : list bool -> list bool) (s : HybridDataStructure) :=
  mkHybridDataStructure (num_shards s) (f (local_locks s)) (local_data s)
    (global_lock s) (global_counter s) (local_reads s) (local_writes s)
    (lock_wait_time s) (write_conflicts s).

Definition set_local_data
    (f : list (gmap string Z) -> list (gmap string Z)) (s : HybridDataStructure) :=
  mkHybridDataStructure (num_shards s) (local_locks s) (f (local_data s))
    (global_lock s) (global_counter s) (local_reads s) (local_writes s)
    (lock_wait_time s) (write_conflicts s).

Definition set_global_lock (b : bool) (s : HybridDataStructure) :=
  mkHybridDataStructure (num_shards s) (local_locks s) (local_data s)
    b (global_counter s) (local_reads s) (local_writes s)
    (lock_wait_time s) (write_conflicts s).

Definition set_global_counter (c : Z) (s : HybridDataStructure) :=
  mkHybridDataStructure (num_shards s) (local_locks s) (local_data s)
    (global_lock s) c (local_reads s) (local_writes s)
    (lock_wait_time s) (write_conflicts s).

Definition set_local_reads (c : Z) (s : HybridDataStructure) :=
  mkHybridDataStructure (num_shards s) (local_locks s) (local_data s)
    (global_lock s) (global_counter s) c (local_writes s)
    (lock_wait_time s) (write_conflicts s).

Definition set_local_writes (c : Z) (s : HybridDataStructure) :=
  mkHybridDataStructure (num_shards s) (local_locks s) (local_data s)
    (global_lock s) (global_counter s) (local_reads s) c
    (lock_wait_time s) (write_conflicts s).

Definition set_lock_wait_time (t : float) (s : HybridDataStructure) :=
  mkHybridDataStructure (num_shards s) (local_locks s) (local_data s)
    (global_lock s) (global_counter s) (local_reads s) (local_writes s)
    t (write_conflicts s).

Definition set_write_conflicts (c : Z) (s : HybridDataStructure) :=
  mkHybridDataStructure (num_shards s) (local_locks s) (local_data s)
    (global_lock s) (global_counter s) (local_reads s) (local_writes s)
    (lock_wait_time s) c.

(** ** [with lock:] *)

(** [with self.local_locks[shard_index]: body].  The subscript is
    evaluated first and may raise; then the lock is taken, or the call
    waits for ever when it is held; the block runs; the lock is
    released however the block ended. *)
Definition with_local_lock {A} (shard_index : Z) (body : Method A) : Method A :=
  s ← get;
  match py_position (length (local_locks s)) shard_index with
  | None => raise IndexError
  | Some p =>
      match local_locks s !! p with
      | None => raise IndexError
      | Some true => block
      | Some false =>
          modify (set_local_locks (<[p := true]>));;
          finally body (modify (set_local_locks (<[p := false]>)))
      end
  end.

(** [with self.global_lock: body] *)
Definition with_global_lock {A} (body : Method A) : Method A :=
  s ← get;
  if global_lock s then block
  else
    modify (set_global_lock true);;
    finally body (modify (set_global_lock false)).

(** ** The class *)

(** [HybridDataStructure(num_shards)]: [range(n)] is empty for [n <= 0]. *)
Definition init (n : Z) : HybridDataStructure := {|
  num_shards := n;
  local_locks := replicate (Z.to_nat n) false;
  local_data := replicate (Z.to_nat n) ∅;
  global_lock := false;
  global_counter := 0;
  local_reads := 0;
  local_writes := 0;
  lock_wait_time := 0%float;
  write_conflicts := 0
|}.

Section Methods.

(** The built-in [hash] on keys: some fixed function into the integers,
    of either sign. *)
Variable hash : string -> Z.

Definition _get_shard_index (key : string) : Method Z :=
  s ← get;
  if bool_decide (num_shards s = 0) then raise ZeroDivisionError
  else mret (hash key `mod` num_shards s).

(** [lock_time] stands for [time.perf_counter() - start_time], read
    once the lock is held. *)
Definition local_write (lock_time : float) (key : string) (value : pyval) : Method unit :=
  shard_index ← _get_shard_index key;
  try_except
    (with_local_lock shard_index (
       s ← get;
       modify (set_lock_wait_time (lock_wait_time s + lock_time)%float);;
       s ← get;
       shard ← py_getitem (local_data s) shard_index;
       (if bool_decide (is_Some (shard !! key))
        then modify (set_write_conflicts (write_conflicts s + 1))
        else mret tt);;
       s ← get;
       shard ← py_getitem (local_data s) shard_index;
       sum ← py_add "+" (default 0 (shard !! key)) value;
       s ← get;
       match py_position (length (local_data s)) shard_index with
       | None => raise IndexError
       | Some p =>
           modify (set_local_data (alter (<[key := sum]>) p));;
           s ← get;
           modify (set_local_writes (local_writes s + 1))
       end))
    (fun e => print ("Error in local_write: " ++ exn_message e)).

(** The result is the accumulator, or Python's [None]: [None] here.  A
    call whose fault was caught falls off the end of the method and
    gives [None] as well. *)
Definition local_read (key : string) : Method (option Z) :=
  shard_index ← _get_shard_index key;
  try_except
    (with_local_lock shard_index (
       s ← get;
       modify (set_local_reads (local_reads s + 1));;
       s ← get;
       shard ← py_getitem (local_data s) shard_index;
       mret (shard !! key)))
    (fun e => print ("Error in local_read: " ++ exn_message e);; mret None).

Definition critical_update (lock_time : float) (increment : pyval) : Method unit :=
  try_except
    (with_global_lock (
       s ← get;
       modify (set_lock_wait_time (lock_wait_time s + lock_time)%float);;
       s ← get;
       c ← py_add "+=" (global_counter s) increment;
       modify (set_global_counter c)))
    (fun e => print ("Error in critical_update: " ++ exn_message e)).

Definition hybrid_operation
    (lock_time_write lock_time_update : float) (key : string) (value : pyval) : Method unit :=
  local_write lock_time_write key value;;
  critical_update lock_time_update value.

(** ** What [run_test] measures *)

(** [sum(shard.values())] *)
Definition shard_sum (shard : gmap string Z) : Z :=
  map_fold (fun _ v acc => v + acc) 0 shard.

(** [sum(sum(shard.values()) for shard in hybrid_obj.local_data)] *)
Definition total_local_sum (s : HybridDataStructure) : Z :=
  foldr Z.add 0 (shard_sum <$> local_data s).

(** [difference = hybrid_obj.global_counter - total_local_sum] *)
Definition difference (s : HybridDataStructure) : Z :=
  global_counter s - total_local_sum s.

(** ** Scripts of calls, run by one thread *)

Inductive call : Type :=
  | LocalWrite (lock_time : float) (key : string) (value : pyval)
  | LocalRead (key : string)
  | CriticalUpdate (lock_time : float) (increment : pyval)
  | HybridOperation (lock_time_write lock_time_update : float)
      (key : string) (value : pyval).

Definition exec (c : call) : Method (option Z) :=
  match c with
  | LocalWrite t key value => local_write t key value;; mret None
  | LocalRead key => local_read key
  | CriticalUpdate t increment => critical_update t increment;; mret None
  | HybridOperation t1 t2 key value => hybrid_operation t1 t2 key value;; mret None
  end.

(** The calls one after the other; a call that raises ends the script. *)
Fixpoint run (cs : list call) : Method unit :=
  match cs with
  | [] => mret tt
  | c :: cs' => exec c;; run cs'
  end.

End Methods.

(** ** Objects the constructor can have built *)

(** As many locks as shards and as many dicts, [max 0 num_shards] of
    each, and no lock held: what [__init__] sets up and what every
    method keeps when one thread calls it. *)
Definition wf (s : HybridDataStructure) : Prop :=
  length (local_locks s) = Z.to_nat (num_shards s)
  /\ length (local_data s) = Z.to_nat (num_shards s)
  /\ Forall (eq false) (local_locks s)
  /\ global_lock s = false.

(** ** Vocabulary of the statements *)

(** When [num_shards = 0] the shard methods raise from
    [_get_shard_index], before their [try]. *)
Definition uses_shard (c : call) : bool :=
  match c with
  | CriticalUpdate _ _ => false
  | _ => true
  end.

Section Specifications.

Variable hash : string -> Z.

(** The position in [local_data] of the shard of [key], for
    [num_shards >= 1]. *)
Definition shard_of (key : string) (s : HybridDataStructure) : nat :=
  Z.to_nat (hash key `mod` num_shards s).

(** The dict of that shard; empty when there is none. *)
Definition shard_at (key : string) (s : HybridDataStructure) : gmap string Z :=
  default ∅ (local_data s !! shard_of key s).

Definition accumulate (key : string) (v : Z) (shard : gmap string Z) : gmap string Z :=
  <[key := default 0 (shard !! key) + v]> shard.

(** 1 when [key] is in its shard, 0 otherwise. *)
Definition conflict (key : string) (s : HybridDataStructure) : Z :=
  if bool_decide (is_Some (shard_at key s !! key)) then 1 else 0.

Definition type_error_line (method op : string) : string :=
  "Error in " ++ method ++ ": unsupported operand type(s) for " ++ op
    ++ ": 'int' and 'str'".

Definition index_error_line (method : string) : string :=
  "Error in " ++ method ++ ": list index out of range".

(** *** The object after a call, for [num_shards >= 1] *)

Definition written (t : float) (key : string) (value : pyval)
    (s : HybridDataStructure) : HybridDataStructure :=
  mkHybridDataStructure (num_shards s) (local_locks s)
    (match value with
     | PInt v => <[shard_of key s := accumulate key v (shard_at key s)]> (local_data s)
     | PStr _ => local_data s
     end)
    (global_lock s) (global_counter s) (local_reads s)
    (match value with
     | PInt _ => local_writes s + 1
     | PStr _ => local_writes s
     end)
    (lock_wait_time s + t)%float (write_conflicts s + conflict key s).

Definition read_done (s : HybridDataStructure) : HybridDataStructure :=
  mkHybridDataStructure (num_shards s) (local_locks s) (local_data s)
    (global_lock s) (global_counter s) (local_reads s + 1) (local_writes s)
    (lock_wait_time s) (write_conflicts s).

Definition updated (t : float) (increment : pyval)
    (s : HybridDataStructure) : HybridDataStructure :=
  mkHybridDataStructure (num_shards s) (local_locks s) (local_data s)
    (global_lock s) (global_counter s + int_of increment) (local_reads s)
    (local_writes s) (lock_wait_time s + t)%float (write_conflicts s).

Definition fault_lines (method op : string) (value : pyval) : list string :=
  match value with
  | PInt _ => []
  | PStr _ => [type_error_line method op]
  end.

(** The object after call [c], for [num_shards >= 1]. *)
Definition post (c : call) (s : HybridDataStructure) : HybridDataStructure :=
  match c with
  | LocalWrite t key value => written t key value s
  | LocalRead key => read_done s
  | CriticalUpdate t increment => updated t increment s
  | HybridOperation t1 t2 key value => updated t2 value (written t1 key value s)
  end.

Definition returned (c : call) (s : HybridDataStructure) : option Z :=
  match c with
  | LocalRead key => shard_at key s !! key
  | _ => None
  end.

(** The object after call [c] when [num_shards < 0]: the shard methods
    fault on the lock subscript before they change anything. *)
Definition post_no_shards (c : call) (s : HybridDataStructure) : HybridDataStructure :=
  match c with
  | LocalWrite _ _ _ | LocalRead _ => s
  | CriticalUpdate t increment | HybridOperation _ t _ increment => updated t increment s
  end.

(** [key in self.local_data[self._get_shard_index(key)]], read off the
    object before a call; [false] when there is no such shard. *)
Definition key_in_its_shard (key : string) (s : HybridDataStructure) : bool :=
  match _get_shard_index hash key s with
  | mkResult (Return shard_index) _ _ =>
      match py_getitem (local_data s) shard_index s with
      | mkResult (Return shard) _ _ => bool_decide (is_Some (shard !! key))
      | _ => false
      end
  | _ => false
  end.

(** The keys a call hands to [local_write]. *)
Definition written_key (c : call) : option string :=
  match c with
  | LocalWrite _ key _ | HybridOperation _ _ key _ => Some key
  | _ => None
  end.

(** 1 when call [c] is a [local_write] (its own or the one inside
    [hybrid_operation]) whose key is in its shard when it is called. *)
Definition finds_key (c : call) (s : HybridDataStructure) : Z :=
  match written_key c with
  | Some key => if key_in_its_shard key s then 1 else 0
  | None => 0
  end.

(** The number of [local_write] calls of a script that find their key
    in its shard, counted along the run from object [s]. *)
Fixpoint conflicting_writes (cs : list call) (s : HybridDataStructure) : Z :=
  match cs with
  | [] => 0
  | c :: cs' =>
      finds_key c s +
      match exec hash c s with
      | mkResult (Return _) s' _ => conflicting_writes cs' s'
      | _ => 0
      end
  end.

End Specifications.

(** A concrete [hash] for closed examples; it is negative on every
    non-empty key. *)
Definition hash_neg_length (key : string) : Z := - Z.of_nat (String.length key).

#[export] Instance pyval_eq_dec : EqDecision pyval.
Proof. solve_decision. Defined.

(** ** Scripts of the consistency workload *)

Definition hybrid_or_critical (c : call) : bool :=
  match c with
  | HybridOperation _ _ _ _ | CriticalUpdate _ _ => true
  | _ => false
  end.

Definition only_hybrid (c : call) : bool :=
  match c with
  | HybridOperation _ _ _ _ => true
  | _ => false
  end.

(** The value a call passes, if it passes one. *)
Definition value_passed (c : call) : list pyval :=
  match c with
  | LocalWrite _ _ v | CriticalUpdate _ v | HybridOperation _ _ _ v => [v]
  | LocalRead _ => []
  end.

(** Every value of a hybrid call is passed by that call and by no
    other call of the script. *)
Definition hybrid_values_passed_nowhere_else (cs : list call) : bool :=
  forallb (fun c =>
    match c with
    | HybridOperation _ _ _ v =>
        bool_decide (length (filter (fun w => w = v) (cs ≫= value_passed)) = 1%nat)
    | _ => true
    end) cs.

(** The sum of the integer increments of the stand-alone
    [critical_update] calls of a script. *)
Fixpoint critical_total (cs : list call) : Z :=
  match cs with
  | [] => 0
  | CriticalUpdate _ increment :: cs' => int_of increment + critical_total cs'
  | _ :: cs' => critical_total cs'
  end.

(** The calls [local_write(key, v)] for the given waits and values. *)
Definition writes_to (key : string) (tvs : list (float * Z)) : list call :=
  (fun tv => LocalWrite tv.1 key (PInt tv.2)) <$> tvs.

Definition sum_values (tvs : list (float * Z)) : Z := foldr Z.add 0 (tvs.*2).

(** [local_write] and then [critical_update], called one after the
    other by the caller, each on the object the previous call left. *)
Definition write_then_update (hash : string -> Z) (t1 t2 : float) (key : string)
    (value : pyval) (s : HybridDataStructure) : result HybridDataStructure unit :=
  match local_write hash t1 key value s with
  | mkResult (Return _) s1 out1 =>
      match critical_update t2 value s1 with
      | mkResult o s2 out2 => mkResult o s2 (out1 ++ out2)
      end
  | r => r
  end.

(** The calls of one method; [hybrid_operation] is two. *)
Definition single_method (c : call) : bool :=
  match c with
  | HybridOperation _ _ _ _ => false
  | _ => true
  end.

(** ** The [try] blocks

    What each method puts under [try], as a computation of its own: a
    fault inside the block is this computation raising. *)

Section TryBlocks.

Variable hash : string -> Z.

(** The block of [local_write], entered with the shard index. *)
Definition local_write_try (lock_time : float) (key : string) (value : pyval)
    (shard_index : Z) : Method unit :=
  with_local_lock shard_index (
    s ← get;
    modify (set_lock_wait_time (lock_wait_time s + lock_time)%float);;
    s ← get;
    shard ← py_getitem (local_data s) shard_index;
    (if bool_decide (is_Some (shard !! key))
     then modify (set_write_conflicts (write_conflicts s + 1))
     else mret tt);;
    s ← get;
    shard ← py_getitem (local_data s) shard_index;
    sum ← py_add "+" (default 0 (shard !! key)) value;
    s ← get;
    match py_position (length (local_data s)) shard_index with
    | None => raise IndexError
    | Some p =>
        modify (set_local_data (alter (<[key := sum]>) p));;
        s ← get;
        modify (set_local_writes (local_writes s + 1))
    end).

(** The block of [local_read]. *)
Definition local_read_try (key : string) (shard_index : Z) : Method (option Z) :=
  with_local_lock shard_index (
    s ← get;
    modify (set_local_reads (local_reads s + 1));;
    s ← get;
    shard ← py_getitem (local_data s) shard_index;
    mret (shard !! key)).

(** The block of [critical_update]. *)
Definition critical_update_try (lock_time : float) (increment : pyval) : Method unit :=
  with_global_lock (
    s ← get;
    modify (set_lock_wait_time (lock_wait_time s + lock_time)%float);;
    s ← get;
    c ← py_add "+=" (global_counter s) increment;
    modify (set_global_counter c)).

(** The block a call enters once its shard index is computed
    ([num_shards] not zero); [hybrid_operation] has no block of its
    own. *)
Definition try_block (c : call) : Method (option Z) := fun s =>
  match c with
  | LocalWrite t key value =>
      (local_write_try t key value (hash key `mod` num_shards s);; mret None) s
  | LocalRead key => local_read_try key (hash key `mod` num_shards s) s
  | CriticalUpdate t increment => (critical_update_try t increment;; mret None) s
  | HybridOperation _ _ _ _ => mkResult (Return None) s []
  end.

(** The object a fault leaves: what the block had done when it raised,
    with the lock released.  The addition of [local_write] raises
    after the wait and the conflict were recorded, the addition of
    [critical_update] after the wait was; a lock subscript raises
    before anything is done. *)
Definition at_fault (c : call) (e : exn) (s : HybridDataStructure) : HybridDataStructure :=
  match c, e with
  | LocalWrite t key _, TypeError _ _ =>
      set_write_conflicts (write_conflicts s + conflict hash key s)
        (set_lock_wait_time (lock_wait_time s + t)%float s)
  | CriticalUpdate t _, TypeError _ _ =>
      set_lock_wait_time (lock_wait_time s + t)%float s
  | _, _ => s
  end.

End TryBlocks.

(** The name a method prints in its [except] clause. *)
Definition method_name (c : call) : string :=
  match c with
  | LocalWrite _ _ _ => "local_write"
  | LocalRead _ => "local_read"
  | CriticalUpdate _ _ => "critical_update"
  | HybridOperation _ _ _ _ => "hybrid_operation"
  end.

(** [print(f"Error in {method}: {e}")] *)
Definition error_line (method : string) (e : exn) : string :=
  "Error in " ++ method ++ ": " ++ exn_message e.

Definition C1_script : list call :=
  [HybridOperation 0.5%float 0.25%float "a" (PInt 5);
   CriticalUpdate 0.125%float (PInt 7)].

Definition C1_hybrid_script : list call :=
  [HybridOperation 0.5%float 0.25%float "a" (PInt 5);
   HybridOperation 0.125%float 0.5%float "b" (PInt 3);
   HybridOperation 0.25%float 0.25%float "a" (PInt (-2))].

(** A store with 4 shards in which key ["a"] holds 10. *)
Definition C9_store : HybridDataStructure :=
  final (local_write hash_neg_length 0.5%float "a" (PInt 10) (init 4)).

(** ** Totals over a script *)

(** What a call adds to [difference]: a stand-alone update adds its
    integer increment, a stand-alone write takes its integer value
    away, a hybrid call and a read add nothing. *)
Definition gap_change (c : call) : Z :=
  match c with
  | CriticalUpdate _ increment => int_of increment
  | LocalWrite _ _ value => - int_of value
  | _ => 0
  end.

Definition is_read (c : call) : Z :=
  match c with
  | LocalRead _ => 1
  | _ => 0
  end.

(** 1 for a call that hands an integer to [local_write]. *)
Definition is_int_write (c : call) : Z :=
  match c with
  | LocalWrite _ _ (PInt _) | HybridOperation _ _ _ (PInt _) => 1
  | _ => 0
  end.

(** The integer a call hands to [critical_update]. *)
Definition counter_change (c : call) : Z :=
  match c with
  | CriticalUpdate _ increment | HybridOperation _ _ _ increment => int_of increment
  | _ => 0
  end.

Definition total (f : call -> Z) (cs : list call) : Z := foldr Z.add 0 (f <$> cs).

(** The call passes an integer, or nothing. *)
Definition int_valued (c : call) : bool :=
  match c with
  | LocalWrite _ _ (PStr _) | CriticalUpdate _ (PStr _)
  | HybridOperation _ _ _ (PStr _) => false
  | _ => true
  end.

(** The number of keys the shards hold. *)
Definition stored_keys (s : HybridDataStructure) : Z :=
  foldr Z.add 0 ((fun shard : gmap string Z => Z.of_nat (size shard)) <$> local_data s).

(** ** The worker *)

(** A task as [run_test] queues it: [(task_type, key, value)]. *)
Definition task : Type := string * string * pyval.

(** What the environment gives one turn of the worker's loop: the draw
    of [random.random()] and the waits the clock measures. *)
Record turn : Type := mkTurn {
  coin : float;
  wait_shard : float;
  wait_global : float
}.

Definition started_line (name : string) : string :=
  "Thread " ++ name ++ " started.".

Definition processing_line (name task_type : string) : string :=
  "Thread " ++ name ++ " processing " ++ task_type.

Definition exiting_line (name : string) : string :=
  "Thread " ++ name ++ " exiting - queue empty.".

(** The task is one of the two kinds that go to a shard. *)
Definition shard_task (tk : task) : bool :=
  bool_decide (tk.1.1 = "local") || bool_decide (tk.1.1 = "hybrid").

Definition int_task (tk : task) : bool :=
  match tk.2 with
  | PInt _ => true
  | PStr _ => false
  end.

Section Worker.

Variable hash : string -> Z.

(** Every key sits in the shard its hash selects. *)
Definition keys_in_place (s : HybridDataStructure) : Prop :=
  forall (p : nat) (shard : gmap string Z) (key : string),
    local_data s !! p = Some shard -> is_Some (shard !! key) ->
    p = shard_of hash key s.

(** The [if]/[elif] chain of [worker] on one task. *)
Definition dispatch (d : turn) (tk : task) : Method unit :=
  let '(task_type, key, value) := tk in
  if bool_decide (task_type = "local") then
    if (coin d <? 0.5)%float
    then local_write hash (wait_shard d) key value
    else local_read hash key;; mret tt
  else if bool_decide (task_type = "critical") then
    critical_update (wait_global d) value
  else if bool_decide (task_type = "hybrid") then
    hybrid_operation hash (wait_shard d) (wait_global d) key value
  else mret tt.

(** The loop of [worker], run by one thread on the queue [queue]; [i]
    counts the turns.  [task_queue.get] takes the head, or finds the
    queue empty: the worker prints and returns.  Any other exception
    leaves the loop and the function.  [task_queue.task_done()] only
    feeds [Queue.join], which the script never calls. *)
Fixpoint worker_loop (name : string) (env : nat -> turn) (i : nat)
    (queue : list task) (s : HybridDataStructure)
    : result (HybridDataStructure * list task) unit :=
  match queue with
  | [] => mkResult (Return tt) (s, []) [exiting_line name]
  | tk :: rest =>
      match (print (processing_line name tk.1.1);; dispatch (env i) tk) s with
      | mkResult (Return _) s' out => after out (worker_loop name env (S i) rest s')
      | mkResult (Raise e) s' out => mkResult (Raise e) (s', rest) out
      | mkResult Blocked s' out => mkResult Blocked (s', rest) out
      end
  end.

Definition worker (name : string) (env : nat -> turn)
    (queue : list task) (s : HybridDataStructure)
    : result (HybridDataStructure * list task) unit :=
  after [started_line name] (worker_loop name env 0 queue s).

End Worker.

(** The method call a task becomes on its turn, none for a task of an
    unknown kind. *)
Definition call_of (d : turn) (tk : task) : list call :=
  let '(task_type, key, value) := tk in
  if bool_decide (task_type = "local") then
    if (coin d <? 0.5)%float
    then [LocalWrite (wait_shard d) key value]
    else [LocalRead key]
  else if bool_decide (task_type = "critical") then
    [CriticalUpdate (wait_global d) value]
  else if bool_decide (task_type = "hybrid") then
    [HybridOperation (wait_shard d) (wait_global d) key value]
  else [].

(** What a task adds to the gap on its turn: a [critical] task its
    integer, a [local] task that draws a write the opposite of its
    integer, any other task nothing. *)
Definition task_gap (d : turn) (tk : task) : Z :=
  if bool_decide (tk.1.1 = "critical") then int_of tk.2
  else if bool_decide (tk.1.1 = "local") && (coin d <? 0.5)%float
  then - int_of tk.2 else 0.

Fixpoint queue_gap (env : nat -> turn) (i : nat) (queue : list task) : Z :=
  match queue with
  | [] => 0
  | tk :: rest => task_gap (env i) tk + queue_gap env (S i) rest
  end.

Fixpoint calls_of (env : nat -> turn) (i : nat) (queue : list task) : list call :=
  match queue with
  | [] => []
  | tk :: rest => call_of (env i) tk ++ calls_of env (S i) rest
  end.

(** An environment for closed examples: every draw is 0.25, every wait
    0.125. *)
Definition steady_env (i : nat) : turn := mkTurn 0.25%float 0.125%float 0.125%float.

Definition example_queue : list task :=
  [("local", "a", PInt 10); ("hybrid", "b", PInt 3); ("critical", "a", PInt 7);
   ("other", "c", PInt 1); ("local", "a", PInt 5)].

(** ** [for _ in range(n)] *)

(** The body once for each of [start], [start + 1], ..., [n] times in
    all; an iteration that does not return ends the loop. *)
Fixpoint for_from {S} (start n : nat) (body : nat -> M S unit) : M S unit :=
  match n with
  | O => mret tt
  | S n' => body start;; for_from (Datatypes.S start) n' body
  end.

Definition for_range {S} (n : nat) (body : nat -> M S unit) : M S unit :=
  for_from 0 n body.

(** [v (start) + ... + v (start + n - 1)] *)
Fixpoint sum_from (v : nat -> Z) (start n : nat) : Z :=
  match n with
  | O => 0
  | S n' => v start + sum_from v (Datatypes.S start) n'
  end.

(** ** Inputs of the closed examples *)

Definition mixed_script : list call :=
  [LocalWrite 0.5%float "a" (PInt 10);
   HybridOperation 0.25%float 0.125%float "b" (PInt 3);
   CriticalUpdate 0.5%float (PInt 7);
   LocalRead "a";
   LocalWrite 0.25%float "a" (PInt 5)].

(** A store with 4 shards whose global lock another thread holds. *)
Definition store_with_global_lock_held : HybridDataStructure :=
  set_global_lock true (init 4).

(** ** The first version of the class

    [HybridDataStructure.py] opens with an earlier version of the class:
    no [try], no [lock_wait_time], no [write_conflicts], and a
    [local_write] that branches on [key in ...].  Values are integers
    here. *)

Module FirstVersion.

Record HybridDataStructure : Type := mkHybridDataStructure {
  num_shards : Z;
  local_locks : list bool;
  local_data : list (gmap string Z);
  global_lock : bool;
  global_counter : Z;
  local_reads : Z;
  local_writes : Z
}.

Abbreviation Method := (M HybridDataStructure).

Definition set_local_locks (f : list bool -> list bool) (s : HybridDataStructure) :=
  mkHybridDataStructure (num_shards s) (f (local_locks s)) (local_data s)
    (global_lock s) (global_counter s) (local_reads s) (local_writes s).

Definition set_local_data
    (f : list (gmap string Z) -> list (gmap string Z)) (s : HybridDataStructure) :=
  mkHybridDataStructure (num_shards s) (local_locks s) (f (local_data s))
    (global_lock s) (global_counter s) (local_reads s) (local_writes s).

Definition set_global_lock (b : bool) (s : HybridDataStructure) :=
  mkHybridDataStructure (num_shards s) (local_locks s) (local_data s)
    b (global_counter s) (local_reads s) (local_writes s).

Definition set_global_counter (c : Z) (s : HybridDataStructure) :=
  mkHybridDataStructure (num_shards s) (local_locks s) (local_data s)
    (global_lock s) c (local_reads s) (local_writes s).

Definition set_local_reads (c : Z) (s : HybridDataStructure) :=
  mkHybridDataStructure (num_shards s) (local_locks s) (local_data s)
    (global_lock s) (global_counter s) c (local_writes s).

Definition set_local_writes (c : Z) (s : HybridDataStructure) :=
  mkHybridDataStructure (num_shards s) (local_locks s) (local_data s)
    (global_lock s) (global_counter s) (local_reads s) c.

Definition with_local_lock {A} (shard_index : Z) (body : Method A) : Method A :=
  s ← get;
  match py_position (length (local_locks s)) shard_index with
  | None => raise IndexError
  | Some p =>
      match local_locks s !! p with
      | None => raise IndexError
      | Some true => block
      | Some false =>
          modify (set_local_locks (<[p := true]>));;
          finally body (modify (set_local_locks (<[p := false]>)))
      end
  end.

Definition with_global_lock {A} (body : Method A) : Method A :=
  s ← get;
  if global_lock s then block
  else
    modify (set_global_lock true);;
    finally body (modify (set_global_lock false)).

Definition init (n : Z) : HybridDataStructure := {|
  num_shards := n;
  local_locks := replicate (Z.to_nat n) false;
  local_data := replicate (Z.to_nat n) ∅;
  global_lock := false;
  global_counter := 0;
  local_reads := 0;
  local_writes := 0
|}.

Section Methods.

Variable hash : string -> Z.

Definition _get_shard_index (key : string) : Method Z :=
  s ← get;
  if bool_decide (num_shards s = 0) then raise ZeroDivisionError
  else mret (hash key `mod` num_shards s).

Definition local_write (key : string) (value : Z) : Method unit :=
  shard_index ← _get_shard_index key;
  with_local_lock shard_index (
    s ← get;
    shard ← py_getitem (local_data s) shard_index;
    match shard !! key with
    | Some acc =>
        match py_position (length (local_data s)) shard_index with
        | None => raise IndexError
        | Some p => modify (set_local_data (alter (<[key := acc + value]>) p))
        end
    | None =>
        match py_position (length (local_data s)) shard_index with
        | None => raise IndexError
        | Some p => modify (set_local_data (alter (<[key := value]>) p))
        end
    end;;
    s ← get;
    modify (set_local_writes (local_writes s + 1))).

Definition local_read (key : string) : Method (option Z) :=
  shard_index ← _get_shard_index key;
  with_local_lock shard_index (
    s ← get;
    modify (set_local_reads (local_reads s + 1));;
    s ← get;
    shard ← py_getitem (local_data s) shard_index;
    mret (shard !! key)).

Definition critical_update (increment : Z) : Method unit :=
  with_global_lock (
    s ← get;
    modify (set_global_counter (global_counter s + increment))).

Definition hybrid_operation (key : string) (value : Z) : Method unit :=
  local_write key value;;
  critical_update value.

(** The calls [local_write(key, v)] for [v] in [vs], in order. *)
Fixpoint write_all (key : string) (vs : list Z) : Method unit :=
  match vs with
  | [] => mret tt
  | v :: vs' => local_write key v;; write_all key vs'
  end.

(** [local_write] and then [critical_update], as two calls. *)
Definition write_then_update (key : string) (value : Z)
    (s : HybridDataStructure) : result HybridDataStructure unit :=
  match local_write key value s with
  | mkResult (Return _) s1 out1 =>
      match critical_update value s1 with
      | mkResult o s2 out2 => mkResult o s2 (out1 ++ out2)
      end
  | r => r
  end.

Definition shard_of (key : string) (s : HybridDataStructure) : nat :=
  Z.to_nat (hash key `mod` num_shards s).

Definition shard_at (key : string) (s : HybridDataStructure) : gmap string Z :=
  default ∅ (local_data s !! shard_of key s).

Definition written (key : string) (value : Z)
    (s : HybridDataStructure) : HybridDataStructure :=
  mkHybridDataStructure (num_shards s) (local_locks s)
    (<[shard_of key s := accumulate key value (shard_at key s)]> (local_data s))
    (global_lock s) (global_counter s) (local_reads s) (local_writes s + 1).

End Methods.

Definition wf (s : HybridDataStructure) : Prop :=
  length (local_locks s) = Z.to_nat (num_shards s)
  /\ length (local_data s) = Z.to_nat (num_shards s)
  /\ Forall (eq false) (local_locks s)
  /\ global_lock s = false.

Ltac eval_first :=
  unfold mbind, M_bind, mret, M_ret, get, modify, raise, block, print,
    try_except, finally, after;
  cbn beta iota zeta delta [outcome_of final printed num_shards local_locks
    local_data global_lock global_counter local_reads local_writes
    set_local_locks set_local_data set_global_lock set_global_counter
    set_local_reads set_local_writes app].

Ltac norm_first :=
  unfold set_local_locks, set_local_data, set_global_lock, set_global_counter,
    set_local_reads, set_local_writes;
  cbn [num_shards local_locks local_data global_lock global_counter
    local_reads local_writes].

(** *** The demo loops and the gap of the first version *)

(** What the environment gives one turn of [demo_local_operations]:
    the draws of [random.randint(1, 3)], [random.random()] and
    [random.randint(100, 999)]; the last is only drawn for a write. *)
Record demo_draw : Type := mkDemoDraw {
  draw_user : Z;
  draw_coin : float;
  draw_val : Z
}.

(** [f"user_{n}"] and [f"resource_{n}"] *)
Definition user_key (n : Z) : string := "user_" ++ pretty n.
Definition resource_key (n : Z) : string := "resource_" ++ pretty n.

Definition read_done (s : HybridDataStructure) : HybridDataStructure :=
  mkHybridDataStructure (num_shards s) (local_locks s) (local_data s)
    (global_lock s) (global_counter s) (local_reads s + 1) (local_writes s).

Definition updated (increment : Z) (s : HybridDataStructure) : HybridDataStructure :=
  mkHybridDataStructure (num_shards s) (local_locks s) (local_data s)
    (global_lock s) (global_counter s + increment) (local_reads s) (local_writes s).

(** [sum(sum(shard.values()) for shard in hybrid_obj.local_data)] and
    [difference], as [run_test] computes them. *)
Definition total_local_sum (s : HybridDataStructure) : Z :=
  foldr Z.add 0 (shard_sum <$> local_data s).

Definition difference (s : HybridDataStructure) : Z :=
  global_counter s - total_local_sum s.

Section Demos.

Variable hash : string -> Z.

(** [time.sleep] changes nothing of the object and is left out. *)
Definition demo_local_operations (thread_id : Z) (env : nat -> demo_draw) : Method unit :=
  for_range 5 (fun i =>
    let key := user_key (draw_user (env i)) in
    if (draw_coin (env i) <? 0.5)%float
    then local_write hash key (draw_val (env i))
    else local_read hash key;; mret tt).

Definition demo_critical_operation (thread_id : Z) : Method unit :=
  for_range 5 (fun _ => critical_update 1).

(** [val i] is the draw of [random.randint(1000, 2000)] on turn [i]. *)
Definition demo_hybrid_operation (thread_id : Z) (val : nat -> Z) : Method unit :=
  for_range 5 (fun i => hybrid_operation hash (resource_key thread_id) (val i)).

End Demos.

(** Draws for closed examples. *)
Definition steady_draw (i : nat) : demo_draw := mkDemoDraw 2 0.25%float 100.
Definition rising_val (i : nat) : Z := 1000 + Z.of_nat i.

End FirstVersion.

(** ** The two versions side by side *)

(** The fields the first version has, read off an object of the later
    one. *)
Definition first_fields (s : HybridDataStructure) : FirstVersion.HybridDataStructure :=
  FirstVersion.mkHybridDataStructure (num_shards s) (local_locks s) (local_data s)
    (global_lock s) (global_counter s) (local_reads s) (local_writes s).

(** ** Evaluation tactics *)

Ltac eval_m :=
  unfold mbind, M_bind, mret, M_ret, get, modify, raise, block, print,
    try_except, finally, after;
  cbn beta iota zeta delta [outcome_of final printed num_shards local_locks
    local_data global_lock global_counter local_reads local_writes
    lock_wait_time write_conflicts set_local_locks set_local_data
    set_global_lock set_global_counter set_local_reads set_local_writes
    set_lock_wait_time set_write_conflicts app].

Ltac norm_state :=
  unfold set_local_locks, set_local_data, set_global_lock, set_global_counter,
    set_local_reads, set_local_writes, set_lock_wait_time, set_write_conflicts;
  cbn [num_shards local_locks local_data global_lock global_counter
    local_reads local_writes lock_wait_time write_conflicts].

Ltac fields :=
  cbn [num_shards local_locks local_data global_lock global_counter
    local_reads local_writes lock_wait_time write_conflicts
    outcome_of final printed] in *.

(** ** Lists, locks and shard sums *)

Lemma py_position_in_range (len : nat) (i : Z) :
  0 <= i < Z.of_nat len -> py_position len i = Some (Z.to_nat i).
Proof. intros H. unfold py_position. by rewrite bool_decide_eq_true_2. Qed.

Lemma py_position_empty (i : Z) : py_position 0 i = None.
Proof.
  unfold py_position.
  rewrite !bool_decide_eq_false_2; [done | simpl; lia | simpl; lia].
Qed.

Lemma free_lookup (locks : list bool) (p : nat) :
  Forall (eq false) locks -> (p < length locks)%nat -> locks !! p = Some false.
Proof.
  intros Hf Hp. destruct (lookup_lt_is_Some_2 locks p Hp) as [b Hb].
  rewrite Hb. f_equal. symmetry. by eapply (Forall_lookup_1 _ _ _ _ Hf).
Qed.

Lemma release_acquire (locks : list bool) (p : nat) :
  locks !! p = Some false -> <[p := false]> (<[p := true]> locks) = locks.
Proof. intros H. rewrite list_insert_insert_eq. by apply list_insert_id. Qed.

Lemma alter_at {A} (f : A -> A) (l : list A) (p : nat) (x : A) :
  l !! p = Some x -> alter f p l = <[p := f x]> l.
Proof.
  revert p. induction l as [|y l IH]; intros [|p] H; simplify_eq/=; [done|].
  f_equal. by apply IH.
Qed.

Lemma wf_init (n : Z) : wf (init n).
Proof.
  unfold wf, init; cbn. rewrite !length_replicate.
  repeat split. apply Forall_forall. intros b Hb.
  by apply elem_of_replicate in Hb as [-> _].
Qed.

Lemma wf_no_shards (s : HybridDataStructure) :
  wf s -> num_shards s <= 0 -> local_locks s = [] /\ local_data s = [].
Proof.
  intros (Hl & Hd & _) Hn. split; apply length_zero_iff_nil; lia.
Qed.

(** ** What each method does to a well-formed object *)

Section MethodFacts.

Variable hash : string -> Z.

Lemma get_shard_index_ok key s :
  num_shards s <> 0 ->
  _get_shard_index hash key s = mkResult (Return (hash key `mod` num_shards s)) s [].
Proof.
  intros Hn. unfold _get_shard_index. eval_m.
  by rewrite bool_decide_eq_false_2.
Qed.

Lemma get_shard_index_zero key s :
  num_shards s = 0 ->
  _get_shard_index hash key s = mkResult (Raise ZeroDivisionError) s [].
Proof.
  intros Hn. unfold _get_shard_index. eval_m.
  by rewrite bool_decide_eq_true_2.
Qed.

(** The shard of a key exists and its lock is free. *)
Lemma shard_ready key s :
  wf s -> 1 <= num_shards s ->
  let i := hash key `mod` num_shards s in
  0 <= i < num_shards s
  /\ py_position (length (local_locks s)) i = Some (shard_of hash key s)
  /\ py_position (length (local_data s)) i = Some (shard_of hash key s)
  /\ local_locks s !! shard_of hash key s = Some false
  /\ local_data s !! shard_of hash key s = Some (shard_at hash key s).
Proof.
  intros (Hl & Hd & Hf & Hg) Hn i.
  pose proof (Z.mod_pos_bound (hash key) (num_shards s) ltac:(lia)) as Hi.
  fold i in Hi. unfold shard_at, shard_of. fold i.
  split; [done|].
  rewrite Hl, Hd, !py_position_in_range by lia.
  repeat split.
  - apply free_lookup; [done | lia].
  - destruct (lookup_lt_is_Some_2 (local_data s) (Z.to_nat i) ltac:(lia)) as [m Hm].
    by rewrite Hm.
Qed.

Lemma local_write_int s t key v :
  wf s -> 1 <= num_shards s ->
  local_write hash t key (PInt v) s =
  mkResult (Return tt)
    (mkHybridDataStructure (num_shards s) (local_locks s)
       (<[shard_of hash key s := accumulate key v (shard_at hash key s)]> (local_data s))
       (global_lock s) (global_counter s) (local_reads s) (local_writes s + 1)
       (lock_wait_time s + t)%float (write_conflicts s + conflict hash key s)) [].
Proof.
  intros Hwf Hn.
  destruct (shard_ready key s Hwf Hn) as (Hi & Hpl & Hpd & Hlk & Hsh).
  unfold conflict. revert Hpl Hpd Hlk Hsh.
  generalize (shard_at hash key s) (shard_of hash key s). intros shard p Hpl Hpd Hlk Hsh.
  destruct s as [n locks data gl gc lr lw lt wc]; fields.
  unfold local_write, _get_shard_index, with_local_lock, py_getitem, py_add.
  eval_m. rewrite bool_decide_eq_false_2 by lia. eval_m.
  rewrite Hpl, Hlk. eval_m. rewrite Hpd, Hsh.
  case_bool_decide; eval_m.
  all: rewrite Hpd, Hsh; eval_m.
  all: rewrite Hpd; eval_m.
  all: norm_state; rewrite release_acquire, (alter_at _ _ _ _ Hsh) by done.
  all: unfold accumulate; repeat f_equal; lia.
Qed.

(** A [str] value: the addition raises after the wait and the conflict
    were recorded; the [except] clause prints and the method returns. *)
Lemma local_write_str s t key x :
  wf s -> 1 <= num_shards s ->
  local_write hash t key (PStr x) s =
  mkResult (Return tt)
    (mkHybridDataStructure (num_shards s) (local_locks s) (local_data s)
       (global_lock s) (global_counter s) (local_reads s) (local_writes s)
       (lock_wait_time s + t)%float (write_conflicts s + conflict hash key s))
    [type_error_line "local_write" "+"].
Proof.
  intros Hwf Hn.
  destruct (shard_ready key s Hwf Hn) as (Hi & Hpl & Hpd & Hlk & Hsh).
  unfold conflict. revert Hpl Hpd Hlk Hsh.
  generalize (shard_at hash key s) (shard_of hash key s). intros shard p Hpl Hpd Hlk Hsh.
  destruct s as [n locks data gl gc lr lw lt wc]; fields.
  unfold local_write, _get_shard_index, with_local_lock, py_getitem, py_add.
  eval_m. rewrite bool_decide_eq_false_2 by lia. eval_m.
  rewrite Hpl, Hlk. eval_m. rewrite Hpd, Hsh.
  case_bool_decide; eval_m.
  all: rewrite Hpd, Hsh; eval_m.
  all: norm_state; rewrite release_acquire by done.
  all: repeat f_equal; lia.
Qed.

(** A negative shard count: there is no lock to index. *)
Lemma local_write_no_shards s t key value :
  wf s -> num_shards s < 0 ->
  local_write hash t key value s =
  mkResult (Return tt) s [index_error_line "local_write"].
Proof.
  intros Hwf Hn. destruct (wf_no_shards s Hwf ltac:(lia)) as [Hl Hd].
  destruct s as [n locks data gl gc lr lw lt wc]; fields. subst locks data.
  unfold local_write, _get_shard_index, with_local_lock.
  eval_m. rewrite bool_decide_eq_false_2 by lia. eval_m.
  cbn [length]. rewrite py_position_empty. by eval_m.
Qed.

Lemma local_write_zero s t key value :
  num_shards s = 0 ->
  local_write hash t key value s = mkResult (Raise ZeroDivisionError) s [].
Proof.
  intros Hn. unfold local_write. unfold mbind at 1. unfold M_bind.
  by rewrite get_shard_index_zero.
Qed.

Lemma local_read_ok s key :
  wf s -> 1 <= num_shards s ->
  local_read hash key s =
  mkResult (Return (shard_at hash key s !! key))
    (mkHybridDataStructure (num_shards s) (local_locks s) (local_data s)
       (global_lock s) (global_counter s) (local_reads s + 1) (local_writes s)
       (lock_wait_time s) (write_conflicts s)) [].
Proof.
  intros Hwf Hn.
  destruct (shard_ready key s Hwf Hn) as (Hi & Hpl & Hpd & Hlk & Hsh).
  revert Hpl Hpd Hlk Hsh.
  generalize (shard_at hash key s) (shard_of hash key s). intros shard p Hpl Hpd Hlk Hsh.
  destruct s as [n locks data gl gc lr lw lt wc]; fields.
  unfold local_read, _get_shard_index, with_local_lock, py_getitem.
  eval_m. rewrite bool_decide_eq_false_2 by lia. eval_m.
  rewrite Hpl, Hlk. eval_m. rewrite Hpd, Hsh. eval_m.
  norm_state. by rewrite release_acquire.
Qed.

Lemma local_read_no_shards s key :
  wf s -> num_shards s < 0 ->
  local_read hash key s = mkResult (Return None) s [index_error_line "local_read"].
Proof.
  intros Hwf Hn. destruct (wf_no_shards s Hwf ltac:(lia)) as [Hl Hd].
  destruct s as [n locks data gl gc lr lw lt wc]; fields. subst locks data.
  unfold local_read, _get_shard_index, with_local_lock.
  eval_m. rewrite bool_decide_eq_false_2 by lia. eval_m.
  cbn [length]. rewrite py_position_empty. by eval_m.
Qed.

Lemma local_read_zero s key :
  num_shards s = 0 ->
  local_read hash key s = mkResult (Raise ZeroDivisionError) s [].
Proof.
  intros Hn. unfold local_read. unfold mbind at 1. unfold M_bind.
  by rewrite get_shard_index_zero.
Qed.

Lemma critical_update_int s t z :
  global_lock s = false ->
  critical_update t (PInt z) s =
  mkResult (Return tt)
    (mkHybridDataStructure (num_shards s) (local_locks s) (local_data s)
       (global_lock s) (global_counter s + z) (local_reads s) (local_writes s)
       (lock_wait_time s + t)%float (write_conflicts s)) [].
Proof.
  intros Hg. destruct s as [n locks data gl gc lr lw lt wc]; fields. subst gl.
  unfold critical_update, with_global_lock, py_add. by eval_m.
Qed.

Lemma critical_update_str s t x :
  global_lock s = false ->
  critical_update t (PStr x) s =
  mkResult (Return tt)
    (mkHybridDataStructure (num_shards s) (local_locks s) (local_data s)
       (global_lock s) (global_counter s) (local_reads s) (local_writes s)
       (lock_wait_time s + t)%float (write_conflicts s))
    [type_error_line "critical_update" "+="].
Proof.
  intros Hg. destruct s as [n locks data gl gc lr lw lt wc]; fields. subst gl.
  unfold critical_update, with_global_lock, py_add. by eval_m.
Qed.

(** *** The object after a call, for [num_shards >= 1]: proofs *)

Lemma local_write_ok s t key value :
  wf s -> 1 <= num_shards s ->
  local_write hash t key value s =
  mkResult (Return tt) (written hash t key value s) (fault_lines "local_write" "+" value).
Proof.
  intros Hwf Hn. destruct value as [v|x].
  - by rewrite local_write_int.
  - by rewrite local_write_str.
Qed.

Lemma critical_update_ok s t increment :
  global_lock s = false ->
  critical_update t increment s =
  mkResult (Return tt) (updated t increment s)
    (fault_lines "critical_update" "+=" increment).
Proof.
  intros Hg. destruct increment as [z|x].
  - by rewrite critical_update_int.
  - rewrite critical_update_str by done. unfold updated; cbn [int_of].
    by rewrite Z.add_0_r.
Qed.

Lemma wf_written s t key value : wf s -> wf (written hash t key value s).
Proof.
  intros (Hl & Hd & Hf & Hg). unfold wf, written; fields.
  repeat split; try done. destruct value; [|done]. by rewrite length_insert.
Qed.

Lemma wf_read_done s : wf s -> wf (read_done s).
Proof. by intros (Hl & Hd & Hf & Hg). Qed.

Lemma wf_updated s t increment : wf s -> wf (updated t increment s).
Proof. by intros (Hl & Hd & Hf & Hg). Qed.

Lemma hybrid_operation_ok s t1 t2 key value :
  wf s -> 1 <= num_shards s ->
  hybrid_operation hash t1 t2 key value s =
  mkResult (Return tt) (updated t2 value (written hash t1 key value s))
    (fault_lines "local_write" "+" value ++ fault_lines "critical_update" "+=" value).
Proof.
  intros Hwf Hn. unfold hybrid_operation, mbind, M_bind.
  rewrite local_write_ok by done.
  rewrite critical_update_ok by (apply wf_written, Hwf).
  done.
Qed.

(** With a negative shard count the write is caught and the update
    still runs. *)
Lemma hybrid_operation_no_shards s t1 t2 key value :
  wf s -> num_shards s < 0 ->
  hybrid_operation hash t1 t2 key value s =
  mkResult (Return tt) (updated t2 value s)
    (index_error_line "local_write" :: fault_lines "critical_update" "+=" value).
Proof.
  intros Hwf Hn. unfold hybrid_operation, mbind, M_bind.
  rewrite local_write_no_shards by done.
  rewrite critical_update_ok by apply Hwf.
  done.
Qed.

Lemma hybrid_operation_zero s t1 t2 key value :
  num_shards s = 0 ->
  hybrid_operation hash t1 t2 key value s = mkResult (Raise ZeroDivisionError) s [].
Proof.
  intros Hn. unfold hybrid_operation, mbind, M_bind.
  by rewrite local_write_zero.
Qed.

Lemma exec_ok c s :
  wf s -> 1 <= num_shards s ->
  outcome_of (exec hash c s) = Return (returned hash c s)
  /\ final (exec hash c s) = post hash c s.
Proof.
  intros Hwf Hn. destruct c as [t key value|key|t increment|t1 t2 key value];
    unfold exec, mbind, M_bind.
  - by rewrite local_write_ok.
  - by rewrite local_read_ok.
  - by rewrite critical_update_ok by apply Hwf.
  - by rewrite hybrid_operation_ok.
Qed.

Lemma wf_post c s : wf s -> wf (post hash c s) /\ num_shards (post hash c s) = num_shards s.
Proof.
  intros Hwf. destruct c; cbn [post]; (split; [|done]).
  - by apply wf_written.
  - by apply wf_read_done.
  - by apply wf_updated.
  - by apply wf_updated, wf_written.
Qed.

(** A script on an object with shards runs to its end. *)
Lemma run_cons c cs s :
  wf s -> 1 <= num_shards s ->
  outcome_of (run hash (c :: cs) s) = outcome_of (run hash cs (post hash c s))
  /\ final (run hash (c :: cs) s) = final (run hash cs (post hash c s)).
Proof.
  intros Hwf Hn. destruct (exec_ok c s Hwf Hn) as [Ho Hs].
  cbn [run]. unfold mbind, M_bind.
  destruct (exec hash c s) as [o s' out]; fields. subst o s'.
  unfold after. by destruct (run hash cs (post hash c s)).
Qed.

Lemma run_returns cs s :
  wf s -> 1 <= num_shards s -> outcome_of (run hash cs s) = Return tt.
Proof.
  revert s. induction cs as [|c cs IH]; intros s Hwf Hn; [done|].
  destruct (run_cons c cs s Hwf Hn) as [-> _].
  destruct (wf_post c s Hwf) as [Hwf' Hn']. apply IH; [done | lia].
Qed.

(** Any property kept by every call holds at the end of a script. *)
Lemma run_invariant (P : HybridDataStructure -> Prop) cs s :
  (forall c s', wf s' -> 1 <= num_shards s' -> P s' -> P (post hash c s')) ->
  wf s -> 1 <= num_shards s -> P s -> P (final (run hash cs s)).
Proof.
  intros Hstep. revert s. induction cs as [|c cs IH]; intros s Hwf Hn HP; [done|].
  destruct (run_cons c cs s Hwf Hn) as [_ ->].
  destruct (wf_post c s Hwf) as [Hwf' Hn']. apply IH; [done | lia | by apply Hstep].
Qed.

(** *** Calls on an object without shards: proofs *)

Lemma exec_no_shards c s :
  wf s -> num_shards s < 0 ->
  outcome_of (exec hash c s) = Return None
  /\ final (exec hash c s) = post_no_shards c s.
Proof.
  intros Hwf Hn. destruct c as [t key value|key|t increment|t1 t2 key value];
    unfold exec, mbind, M_bind.
  - by rewrite local_write_no_shards.
  - by rewrite local_read_no_shards.
  - by rewrite critical_update_ok by apply Hwf.
  - by rewrite hybrid_operation_no_shards.
Qed.

Lemma exec_zero c s :
  wf s -> num_shards s = 0 ->
  if uses_shard c
  then exec hash c s = mkResult (Raise ZeroDivisionError) s []
  else outcome_of (exec hash c s) = Return None
       /\ final (exec hash c s) = post_no_shards c s.
Proof.
  intros Hwf Hn. destruct c as [t key value|key|t increment|t1 t2 key value];
    cbn [uses_shard]; unfold exec, mbind, M_bind.
  - by rewrite local_write_zero.
  - by rewrite local_read_zero.
  - by rewrite critical_update_ok by apply Hwf.
  - by rewrite hybrid_operation_zero.
Qed.

Lemma wf_post_no_shards c s :
  wf s -> wf (post_no_shards c s) /\ num_shards (post_no_shards c s) = num_shards s.
Proof.
  intros Hwf. destruct c; cbn [post_no_shards]; (split; [|done]);
    try done; by apply wf_updated.
Qed.

(** Whatever the shard count, a call keeps the object well formed and
    its shard count as it was. *)
Lemma exec_keeps c s :
  wf s ->
  wf (final (exec hash c s)) /\ num_shards (final (exec hash c s)) = num_shards s.
Proof.
  intros Hwf. destruct (Z.lt_trichotomy (num_shards s) 0) as [Hn|[Hn|Hn]].
  - destruct (exec_no_shards c s Hwf Hn) as [_ ->]. by apply wf_post_no_shards.
  - pose proof (exec_zero c s Hwf Hn) as H. destruct (uses_shard c).
    + by rewrite H.
    + destruct H as [_ ->]. by apply wf_post_no_shards.
  - destruct (exec_ok c s Hwf ltac:(lia)) as [_ ->]. by apply wf_post.
Qed.

Lemma final_after {S A} (out : list string) (r : result S A) :
  final (after out r) = final r.
Proof. by destruct r. Qed.

Lemma outcome_after {S A} (out : list string) (r : result S A) :
  outcome_of (after out r) = outcome_of r.
Proof. by destruct r. Qed.

(** The object at the end of a script: the script stops at the first
    call that does not return. *)
Lemma run_final c cs s :
  final (run hash (c :: cs) s) =
  match outcome_of (exec hash c s) with
  | Return _ => final (run hash cs (final (exec hash c s)))
  | _ => final (exec hash c s)
  end.
Proof.
  cbn [run]. unfold mbind, M_bind.
  destruct (exec hash c s) as [[r|e|] s' out]; fields; [|done..].
  apply final_after.
Qed.

Lemma run_keeps cs s :
  wf s ->
  wf (final (run hash cs s)) /\ num_shards (final (run hash cs s)) = num_shards s.
Proof.
  revert s. induction cs as [|c cs IH]; intros s Hwf; [done|].
  rewrite run_final. destruct (exec_keeps c s Hwf) as [Hwf' Hn'].
  destruct (outcome_of (exec hash c s)); [|done..].
  destruct (IH _ Hwf') as [? ->]. done.
Qed.

(** *** Shard sums *)

Lemma shard_sum_empty : shard_sum ∅ = 0.
Proof. unfold shard_sum. apply map_fold_empty. Qed.

Lemma shard_sum_insert_fresh (shard : gmap string Z) key v :
  shard !! key = None -> shard_sum (<[key := v]> shard) = v + shard_sum shard.
Proof.
  intros H. unfold shard_sum. rewrite map_fold_insert_L; [done | | done].
  intros. lia.
Qed.

Lemma shard_sum_accumulate (shard : gmap string Z) key v :
  shard_sum (accumulate key v shard) = shard_sum shard + v.
Proof.
  unfold accumulate. destruct (shard !! key) as [a|] eqn:Hk; cbn [default from_option id].
  - rewrite <- (insert_delete_id shard key a) at 2 by done.
    rewrite <- insert_delete_eq.
    rewrite !shard_sum_insert_fresh by apply lookup_delete_eq. lia.
  - rewrite shard_sum_insert_fresh by done. lia.
Qed.

Lemma sum_insert {A} (f : A -> Z) (l : list A) (p : nat) (x y : A) :
  l !! p = Some x ->
  foldr Z.add 0 (f <$> <[p := y]> l) = foldr Z.add 0 (f <$> l) - f x + f y.
Proof.
  revert p. induction l as [|z l IH]; intros [|p] H; simplify_eq/=; [lia|].
  rewrite (IH p) by done. lia.
Qed.

Lemma total_local_sum_written s t key value :
  wf s -> 1 <= num_shards s ->
  total_local_sum (written hash t key value s) =
  total_local_sum s + int_of value.
Proof.
  intros Hwf Hn. destruct (shard_ready key s Hwf Hn) as (_ & _ & _ & _ & Hsh).
  unfold total_local_sum, written; fields. destruct value as [v|x]; cbn [int_of].
  - rewrite (sum_insert _ _ _ _ _ Hsh), shard_sum_accumulate. lia.
  - lia.
Qed.

(** *** The shard of a key after a write *)

Lemma shard_at_written s t key v :
  wf s -> 1 <= num_shards s ->
  shard_at hash key (written hash t key (PInt v) s) = accumulate key v (shard_at hash key s).
Proof.
  intros Hwf Hn. destruct (shard_ready key s Hwf Hn) as (_ & _ & _ & _ & Hsh).
  unfold shard_at at 1. unfold written, shard_of; fields. fold (shard_of hash key s).
  rewrite list_lookup_insert_eq; [done|]. by eapply lookup_lt_Some.
Qed.

Lemma lookup_written s t key v :
  wf s -> 1 <= num_shards s ->
  shard_at hash key (written hash t key (PInt v) s) !! key
  = Some (default 0 (shard_at hash key s !! key) + v).
Proof.
  intros Hwf Hn. rewrite shard_at_written by done.
  unfold accumulate. apply lookup_insert_eq.
Qed.

Lemma shard_at_init n key : shard_at hash key (init n) !! key = None.
Proof.
  unfold shard_at, init; fields.
  destruct (replicate (Z.to_nat n) ∅ !! shard_of hash key _) as [m|] eqn:Hm;
    cbn [default from_option id]; [|done].
  apply lookup_replicate in Hm as [-> _]. done.
Qed.

End MethodFacts.

(** ** The consistency gap *)

Section Consistency.

Variable hash : string -> Z.

Lemma difference_init n : difference (init n) = 0.
Proof.
  unfold difference, total_local_sum, init; fields.
  induction (Z.to_nat n) as [|k IH]; [done|].
  cbn [replicate fmap list_fmap foldr]. rewrite shard_sum_empty.
  cbn [replicate fmap list_fmap foldr] in IH. lia.
Qed.

Lemma difference_post c s :
  wf s -> 1 <= num_shards s -> hybrid_or_critical c = true ->
  difference (post hash c s) = difference s + critical_total [c].
Proof.
  intros Hwf Hn Hc. destruct c as [| |t increment|t1 t2 key value]; try done;
    cbn [post critical_total]; unfold difference.
  - unfold total_local_sum, updated; fields. lia.
  - change (total_local_sum (updated t2 value (written hash t1 key value s)))
      with (total_local_sum (written hash t1 key value s)).
    rewrite total_local_sum_written by done.
    unfold updated, written; fields. lia.
Qed.

Lemma critical_total_cons c cs :
  critical_total (c :: cs) = critical_total [c] + critical_total cs.
Proof. destruct c; cbn [critical_total]; lia. Qed.

Lemma difference_run cs s :
  wf s -> 1 <= num_shards s -> forallb hybrid_or_critical cs = true ->
  difference (final (run hash cs s)) = difference s + critical_total cs.
Proof.
  revert s. induction cs as [|c cs IH]; intros s Hwf Hn Hcs.
  - cbn. lia.
  - cbn [forallb] in Hcs. apply andb_prop in Hcs as [Hc Hcs].
    destruct (run_cons hash c cs s Hwf Hn) as [_ ->].
    destruct (wf_post hash c s Hwf) as [Hwf' Hn'].
    rewrite IH, difference_post, (critical_total_cons c cs) by (done || lia). lia.
Qed.

Lemma critical_total_only_hybrid cs :
  forallb only_hybrid cs = true -> critical_total cs = 0.
Proof.
  induction cs as [|c cs IH]; [done|]. cbn [forallb]. intros H.
  apply andb_prop in H as [Hc Hcs]. destruct c; try done. by apply IH.
Qed.

Lemma only_hybrid_is_hybrid_or_critical cs :
  forallb only_hybrid cs = true -> forallb hybrid_or_critical cs = true.
Proof.
  induction cs as [|c cs IH]; [done|]. cbn [forallb]. intros H.
  apply andb_prop in H as [Hc Hcs]. rewrite IH by done. by destruct c.
Qed.

(** C1, as amended: on a fresh store with at least one shard, a script
    of [hybrid_operation] and [critical_update] calls runs to its end
    and leaves the consistency gap [global_counter - total_local_sum]
    equal to the sum of the integer increments passed to the
    stand-alone [critical_update] calls.  The gap is therefore zero when
    the script has only [hybrid_operation] calls, and not in general. *)
Theorem C1_gap_is_critical_total (n : Z) (cs : list call) :
  1 <= n ->
  forallb hybrid_or_critical cs = true ->
  outcome_of (run hash cs (init n)) = Return tt
  /\ difference (final (run hash cs (init n))) = critical_total cs
  /\ (forallb only_hybrid cs = true ->
      difference (final (run hash cs (init n))) = 0).
Proof.
  intros Hn Hcs. pose proof (wf_init n) as Hwf.
  assert (Hgap : difference (final (run hash cs (init n))) = critical_total cs).
  { rewrite difference_run, difference_init by done. lia. }
  split; [by apply run_returns|]. split; [done|].
  intros Hh. rewrite Hgap. by apply critical_total_only_hybrid.
Qed.

End Consistency.

(** C1 as stated fails: a hybrid call with value 5, passed nowhere
    else, and a stand-alone critical update of 7 leave a gap of 7. *)
Lemma C1_counterexample :
  forallb hybrid_or_critical C1_script = true
  /\ hybrid_values_passed_nowhere_else C1_script = true
  /\ outcome_of (run hash_neg_length C1_script (init 4)) = Return tt
  /\ difference (final (run hash_neg_length C1_script (init 4))) = 7
  /\ difference (final (run hash_neg_length C1_script (init 4))) <> 0.
Proof. vm_compute. repeat split; congruence. Qed.

Lemma C1_gap_is_critical_total_witness :
  outcome_of (run hash_neg_length C1_hybrid_script (init 4)) = Return tt
  /\ difference (final (run hash_neg_length C1_hybrid_script (init 4)))
     = critical_total C1_hybrid_script
  /\ difference (final (run hash_neg_length C1_hybrid_script (init 4))) = 0.
Proof.
  destruct (C1_gap_is_critical_total hash_neg_length 4 C1_hybrid_script)
    as (Hr & Hgap & Hzero); [lia | reflexivity |].
  split; [exact Hr|]. split; [exact Hgap|]. apply Hzero. reflexivity.
Defined.

(** ** Accumulation and write conflicts *)

Section Writes.

Variable hash : string -> Z.

Lemma key_in_its_shard_ok key s :
  wf s -> 1 <= num_shards s ->
  key_in_its_shard hash key s = bool_decide (is_Some (shard_at hash key s !! key)).
Proof.
  intros Hwf Hn. destruct (shard_ready hash key s Hwf Hn) as (_ & _ & Hpd & _ & Hsh).
  unfold key_in_its_shard, py_getitem.
  rewrite get_shard_index_ok by lia. by rewrite Hpd, Hsh.
Qed.

Lemma key_in_its_shard_none key s :
  wf s -> num_shards s <= 0 -> key_in_its_shard hash key s = false.
Proof.
  intros Hwf Hn. destruct (wf_no_shards s Hwf Hn) as [_ Hd].
  unfold key_in_its_shard, py_getitem.
  destruct (decide (num_shards s = 0)) as [H0|H0].
  - by rewrite get_shard_index_zero.
  - rewrite get_shard_index_ok, Hd by done. cbn [length].
    by rewrite py_position_empty.
Qed.

Lemma finds_key_none c s : wf s -> num_shards s <= 0 -> finds_key hash c s = 0.
Proof.
  intros Hwf Hn. unfold finds_key. destruct (written_key c); [|done].
  by rewrite key_in_its_shard_none.
Qed.

Lemma write_conflicts_post_no_shards c s :
  write_conflicts (post_no_shards c s) = write_conflicts s.
Proof. by destruct c. Qed.

Lemma exec_conflicts c s :
  wf s ->
  write_conflicts (final (exec hash c s)) = write_conflicts s + finds_key hash c s.
Proof.
  intros Hwf. destruct (Z.lt_trichotomy (num_shards s) 0) as [Hn|[Hn|Hn]].
  - destruct (exec_no_shards hash c s Hwf Hn) as [_ ->].
    rewrite write_conflicts_post_no_shards, finds_key_none by (done || lia). lia.
  - rewrite finds_key_none by (done || lia).
    pose proof (exec_zero hash c s Hwf Hn) as H. destruct (uses_shard c).
    + rewrite H. fields. lia.
    + destruct H as [_ ->]. rewrite write_conflicts_post_no_shards. lia.
  - destruct (exec_ok hash c s Hwf ltac:(lia)) as [_ ->].
    unfold finds_key.
    destruct c as [t key value|key|t increment|t1 t2 key value];
      cbn [written_key post]; try rewrite key_in_its_shard_ok by (done || lia);
      unfold updated, written, read_done, conflict; fields; lia.
Qed.

Lemma conflicts_run cs s :
  wf s ->
  write_conflicts (final (run hash cs s)) = write_conflicts s + conflicting_writes hash cs s.
Proof.
  revert s. induction cs as [|c cs IH]; intros s Hwf.
  - cbn. lia.
  - rewrite run_final. cbn [conflicting_writes].
    pose proof (exec_conflicts c s Hwf) as Hc.
    destruct (exec_keeps hash c s Hwf) as [Hwf' _].
    destruct (exec hash c s) as [[r|e|] s' out]; fields; [|lia..].
    rewrite IH by done. lia.
Qed.

Lemma conflict_init n key : conflict hash key (init n) = 0.
Proof.
  unfold conflict. rewrite shard_at_init.
  rewrite bool_decide_eq_false_2; [done|]. by intros [? ?].
Qed.

Lemma conflict_written s t key v :
  wf s -> 1 <= num_shards s ->
  conflict hash key (written hash t key (PInt v) s) = 1.
Proof.
  intros Hwf Hn. unfold conflict. rewrite lookup_written by done.
  by rewrite bool_decide_eq_true_2.
Qed.

Lemma lookup_after_writes tvs key s :
  wf s -> 1 <= num_shards s ->
  shard_at hash key (final (run hash (writes_to key tvs) s)) !! key =
  match tvs with
  | [] => shard_at hash key s !! key
  | _ => Some (default 0 (shard_at hash key s !! key) + sum_values tvs)
  end.
Proof.
  revert s. induction tvs as [|[t v] tvs IH]; intros s Hwf Hn; [done|].
  cbn [writes_to fmap list_fmap fst snd].
  destruct (run_cons hash (LocalWrite t key (PInt v)) (writes_to key tvs) s Hwf Hn)
    as [_ Hf].
  unfold writes_to in Hf. rewrite Hf. cbn [post].
  fold (writes_to key tvs). rewrite IH by (by apply wf_written || done).
  rewrite lookup_written by done. unfold sum_values.
  destruct tvs as [|tv tvs]; cbn; f_equal; lia.
Qed.

(** C2: on a fresh store with at least one shard, after the calls
    [local_write(k, v1)], ..., [local_write(k, vn)] (n >= 1, integer
    values, nothing else in between) the shard of [k] holds
    [v1 + ... + vn] for [k]: the first write inserts and every later
    one adds. *)
Theorem C2_writes_accumulate (n : Z) (key : string) (tvs : list (float * Z)) :
  1 <= n ->
  tvs <> [] ->
  let r := run hash (writes_to key tvs) (init n) in
  outcome_of r = Return tt
  /\ exists shard,
       local_data (final r) !! shard_of hash key (final r) = Some shard
       /\ shard !! key = Some (sum_values tvs).
Proof.
  intros Hn Hne r. pose proof (wf_init n) as Hwf.
  split; [by apply run_returns|].
  destruct (run_keeps hash (writes_to key tvs) (init n) Hwf) as [Hwf' Hn'].
  fold r in Hwf', Hn'.
  destruct (shard_ready hash key (final r) Hwf' ltac:(cbn in Hn'; lia))
    as (_ & _ & _ & _ & Hsh).
  exists (shard_at hash key (final r)). split; [done|].
  unfold r. rewrite lookup_after_writes by done.
  destruct tvs; [done|]. rewrite shard_at_init. cbn [default from_option id].
  f_equal; lia.
Qed.

(** C3: after any script on a fresh store, whatever its shard count,
    [write_conflicts] is the number of [local_write] calls that found
    their key in its shard when they were called; and three integer
    writes of one key to a store with at least one shard give 2. *)
Theorem C3_write_conflicts_count (n : Z) (cs : list call) :
  write_conflicts (final (run hash cs (init n))) = conflicting_writes hash cs (init n)
  /\ forall key t1 t2 t3 v1 v2 v3,
       1 <= n ->
       write_conflicts (final (run hash
         [LocalWrite t1 key (PInt v1); LocalWrite t2 key (PInt v2);
          LocalWrite t3 key (PInt v3)] (init n))) = 2.
Proof.
  pose proof (wf_init n) as Hwf. split.
  - rewrite conflicts_run by done. cbn. lia.
  - intros key t1 t2 t3 v1 v2 v3 Hn.
    set (s1 := written hash t1 key (PInt v1) (init n)).
    set (s2 := written hash t2 key (PInt v2) s1).
    assert (Hwf1 : wf s1) by by apply wf_written.
    assert (Hwf2 : wf s2) by by apply wf_written.
    destruct (run_cons hash (LocalWrite t1 key (PInt v1))
      [LocalWrite t2 key (PInt v2); LocalWrite t3 key (PInt v3)] (init n) Hwf Hn)
      as [_ ->].
    cbn [post]. fold s1.
    destruct (run_cons hash (LocalWrite t2 key (PInt v2))
      [LocalWrite t3 key (PInt v3)] s1 Hwf1 Hn) as [_ ->].
    cbn [post]. fold s2.
    destruct (run_cons hash (LocalWrite t3 key (PInt v3)) [] s2 Hwf2 Hn) as [_ ->].
    cbn [post run]. unfold mret, M_ret. fields.
    unfold written at 1. fields.
    unfold s2 at 1. unfold written at 1. fields.
    unfold s1 at 1. unfold written at 1. fields.
    unfold s2. rewrite conflict_written by done.
    unfold s1. rewrite conflict_written by done.
    rewrite conflict_init. cbn [init write_conflicts]. lia.
Qed.

End Writes.

Lemma C3_write_conflicts_count_witness :
  write_conflicts (final (run hash_neg_length
    [LocalWrite 0.5%float "a" (PInt 10); LocalWrite 0.25%float "a" (PInt 5);
     LocalWrite 0.125%float "a" (PInt 1)] (init 4))) = 2.
Proof.
  apply (C3_write_conflicts_count hash_neg_length 4 []). lia.
Defined.

Lemma C2_writes_accumulate_witness :
  let r := run hash_neg_length
    (writes_to "a" [(0.5%float, 10); (0.25%float, 5); (0.125%float, -3)]) (init 4) in
  outcome_of r = Return tt
  /\ exists shard,
       local_data (final r) !! shard_of hash_neg_length "a" (final r) = Some shard
       /\ shard !! "a" = Some (sum_values [(0.5%float, 10); (0.25%float, 5); (0.125%float, -3)]).
Proof.
  apply (C2_writes_accumulate hash_neg_length 4 "a"
    [(0.5%float, 10); (0.25%float, 5); (0.125%float, -3)]); [lia | discriminate].
Defined.

(** ** The scripted scenario, shard assignment and the pairing *)

Section Contracts.

Variable hash : string -> Z.

(** C4: on a fresh store with 4 shards, [local_write("a", 10)],
    [local_write("a", 5)], [local_read("a")] in this order: the read
    returns 15, and then [write_conflicts == 1], [local_writes == 2],
    [local_reads == 1]. *)
Theorem C4_scenario (t1 t2 : float) :
  let r := run hash [LocalWrite t1 "a" (PInt 10); LocalWrite t2 "a" (PInt 5)] (init 4) in
  let r' := local_read hash "a" (final r) in
  outcome_of r = Return tt
  /\ outcome_of r' = Return (Some 15)
  /\ write_conflicts (final r') = 1
  /\ local_writes (final r') = 2
  /\ local_reads (final r') = 1.
Proof.
  intros r r'. pose proof (wf_init 4) as Hwf.
  assert (Hn : 1 <= num_shards (init 4)) by (cbn; lia).
  set (s1 := written hash t1 "a" (PInt 10) (init 4)).
  set (s2 := written hash t2 "a" (PInt 5) s1).
  assert (Hwf1 : wf s1) by by apply wf_written.
  assert (Hwf2 : wf s2) by by apply wf_written.
  split; [by apply run_returns|].
  assert (Hr : final r = s2).
  { unfold r.
    destruct (run_cons hash (LocalWrite t1 "a" (PInt 10))
      [LocalWrite t2 "a" (PInt 5)] (init 4) Hwf Hn) as [_ ->].
    cbn [post]. fold s1.
    by destruct (run_cons hash (LocalWrite t2 "a" (PInt 5)) [] s1 Hwf1 Hn) as [_ ->]. }
  unfold r'. rewrite Hr, local_read_ok by done. fields.
  split.
  - unfold s2. rewrite lookup_written by done.
    unfold s1. rewrite lookup_written, shard_at_init by done. done.
  - unfold s2, s1.
    cbn [written write_conflicts local_writes local_reads init].
    rewrite conflict_init, conflict_written by done. done.
Qed.

(** C5: [_get_shard_index] is a function of the key and of
    [num_shards] alone, it changes nothing and prints nothing, and no
    script of calls changes what it gives for a key: the shard of a key
    is the same for the whole life of a store. *)
Theorem C5_shard_index_stable :
  (forall key s,
     final (_get_shard_index hash key s) = s
     /\ printed (_get_shard_index hash key s) = [])
  /\ (forall key s1 s2,
       num_shards s1 = num_shards s2 ->
       outcome_of (_get_shard_index hash key s1)
       = outcome_of (_get_shard_index hash key s2))
  /\ (forall key n cs,
       outcome_of (_get_shard_index hash key (final (run hash cs (init n))))
       = outcome_of (_get_shard_index hash key (init n))).
Proof.
  assert (Hdep : forall key s1 s2, num_shards s1 = num_shards s2 ->
    outcome_of (_get_shard_index hash key s1)
    = outcome_of (_get_shard_index hash key s2)).
  { intros key s1 s2 H. unfold _get_shard_index. eval_m. rewrite H.
    by case_bool_decide. }
  split; [|split; [done|]].
  - intros key s. unfold _get_shard_index. eval_m. by case_bool_decide.
  - intros key n cs. apply Hdep.
    by destruct (run_keeps hash cs (init n) (wf_init n)) as [_ ->].
Qed.

(** C6: [hybrid_operation(key, value)] is [local_write(key, value)]
    followed by [critical_update(value)]: same outcome, same object,
    same output as the two calls made one after the other, and the same
    object as the script of the two calls leaves. *)
Theorem C6_hybrid_is_write_then_update
    (t1 t2 : float) (key : string) (value : pyval) (s : HybridDataStructure) :
  hybrid_operation hash t1 t2 key value s = write_then_update hash t1 t2 key value s
  /\ final (hybrid_operation hash t1 t2 key value s)
     = final (run hash [LocalWrite t1 key value; CriticalUpdate t2 value] s).
Proof.
  unfold hybrid_operation, write_then_update. cbn [run exec].
  unfold mbind, M_bind, mret, M_ret.
  destruct (local_write hash t1 key value s) as [[[]|e|] s1 out1];
    cbn [after final]; [|done..].
  destruct (critical_update t2 value s1) as [[[]|e|] s2 out2]; cbn [after final];
    by rewrite ?app_nil_r.
Qed.

(** C7: on a well-formed store with at least one shard,
    [local_read(k)] adds one to [local_reads], changes nothing else,
    and returns the accumulator of [k] when [k] is in its shard and
    [None] when it is not; [None] is no integer. *)
Theorem C7_local_read (key : string) (s : HybridDataStructure) :
  wf s ->
  1 <= num_shards s ->
  let r := local_read hash key s in
  exists shard,
    local_data s !! shard_of hash key s = Some shard
    /\ final r = read_done s
    /\ local_reads (final r) = local_reads s + 1
    /\ (forall v, shard !! key = Some v -> outcome_of r = Return (Some v))
    /\ (shard !! key = None -> outcome_of r = Return None)
    /\ (forall v : Z, @None Z <> Some v).
Proof.
  intros Hwf Hn r. destruct (shard_ready hash key s Hwf Hn) as (_ & _ & _ & _ & Hsh).
  exists (shard_at hash key s). unfold r. rewrite local_read_ok by done. fields.
  repeat split; try done; by intros; f_equal.
Qed.

(** C8: with the global lock free, [critical_update(i)] for an integer
    [i] returns, adds [i] to [global_counter] and the measured wait to
    [lock_wait_time], leaves the lock free and leaves every shard,
    [local_reads], [local_writes] and [write_conflicts] as they were. *)
Theorem C8_critical_update_frame (t : float) (i : Z) (s : HybridDataStructure) :
  global_lock s = false ->
  let r := critical_update t (PInt i) s in
  outcome_of r = Return tt
  /\ printed r = []
  /\ global_counter (final r) = global_counter s + i
  /\ lock_wait_time (final r) = (lock_wait_time s + t)%float
  /\ local_data (final r) = local_data s
  /\ local_reads (final r) = local_reads s
  /\ local_writes (final r) = local_writes s
  /\ write_conflicts (final r) = write_conflicts s
  /\ num_shards (final r) = num_shards s
  /\ local_locks (final r) = local_locks s
  /\ global_lock (final r) = false.
Proof.
  intros Hg r. unfold r. rewrite critical_update_int by done. fields.
  by repeat split.
Qed.

(** C10: for [num_shards = n >= 1], at any point of the life of the
    store and for any key, whatever the sign of its hash,
    [_get_shard_index] returns an index [i] with [0 <= i < n]; the
    subscripts [local_locks[i]] and [local_data[i]] are in range, and
    [local_write] and [local_read] return without raising. *)
Theorem C10_shard_index_in_bounds (n : Z) (cs : list call) (key : string)
    (t : float) (value : pyval) :
  1 <= n ->
  let s := final (run hash cs (init n)) in
  exists i,
    _get_shard_index hash key s = mkResult (Return i) s []
    /\ 0 <= i < n
    /\ (Z.to_nat i < length (local_locks s))%nat
    /\ (Z.to_nat i < length (local_data s))%nat
    /\ py_position (length (local_locks s)) i = Some (Z.to_nat i)
    /\ py_position (length (local_data s)) i = Some (Z.to_nat i)
    /\ outcome_of (local_write hash t key value s) = Return tt
    /\ exists v, outcome_of (local_read hash key s) = Return v.
Proof.
  intros Hn s. destruct (run_keeps hash cs (init n) (wf_init n)) as [Hwf Hn'].
  fold s in Hwf, Hn'. cbn [init num_shards] in Hn'.
  destruct (shard_ready hash key s Hwf ltac:(lia)) as (Hi & Hpl & Hpd & Hlk & Hsh).
  exists (hash key `mod` num_shards s). rewrite Hn' in Hi.
  split; [apply get_shard_index_ok; lia|]. split; [by rewrite Hn'|].
  split; [by eapply lookup_lt_Some|]. split; [by eapply lookup_lt_Some|].
  split; [done|]. split; [done|].
  rewrite local_write_ok, local_read_ok by (done || lia). eauto.
Qed.

End Contracts.

Lemma C5_shard_index_stable_witness :
  outcome_of (_get_shard_index hash_neg_length "a"
    (final (run hash_neg_length [LocalWrite 0.5%float "b" (PInt 1)] (init 4))))
  = outcome_of (_get_shard_index hash_neg_length "a" (init 4)).
Proof.
  apply (proj1 (proj2 (C5_shard_index_stable hash_neg_length))). reflexivity.
Defined.

Lemma C7_local_read_witness :
  let s := final (run hash_neg_length [LocalWrite 0.5%float "a" (PInt 10)] (init 4)) in
  let r := local_read hash_neg_length "a" s in
  exists shard,
    local_data s !! shard_of hash_neg_length "a" s = Some shard
    /\ final r = read_done s
    /\ local_reads (final r) = local_reads s + 1
    /\ (forall v, shard !! "a" = Some v -> outcome_of r = Return (Some v))
    /\ (shard !! "a" = None -> outcome_of r = Return None)
    /\ (forall v : Z, @None Z <> Some v).
Proof.
  apply (C7_local_read hash_neg_length "a").
  - repeat split; vm_compute; repeat constructor.
  - vm_compute. discriminate.
Defined.

Lemma C8_critical_update_frame_witness :
  let r := critical_update 0.5%float (PInt 7) (init 4) in
  outcome_of r = Return tt
  /\ printed r = []
  /\ global_counter (final r) = global_counter (init 4) + 7
  /\ lock_wait_time (final r) = (lock_wait_time (init 4) + 0.5)%float
  /\ local_data (final r) = local_data (init 4)
  /\ local_reads (final r) = local_reads (init 4)
  /\ local_writes (final r) = local_writes (init 4)
  /\ write_conflicts (final r) = write_conflicts (init 4)
  /\ num_shards (final r) = num_shards (init 4)
  /\ local_locks (final r) = local_locks (init 4)
  /\ global_lock (final r) = false.
Proof.
  apply (C8_critical_update_frame 0.5%float 7 (init 4)). reflexivity.
Defined.

Lemma C10_shard_index_in_bounds_witness :
  let s := final (run hash_neg_length [LocalWrite 0.5%float "b" (PInt 1)] (init 4)) in
  exists i,
    _get_shard_index hash_neg_length "a" s = mkResult (Return i) s []
    /\ 0 <= i < 4
    /\ (Z.to_nat i < length (local_locks s))%nat
    /\ (Z.to_nat i < length (local_data s))%nat
    /\ py_position (length (local_locks s)) i = Some (Z.to_nat i)
    /\ py_position (length (local_data s)) i = Some (Z.to_nat i)
    /\ outcome_of (local_write hash_neg_length 0.25%float "a" (PInt 2) s) = Return tt
    /\ exists v, outcome_of (local_read hash_neg_length "a" s) = Return v.
Proof.
  apply (C10_shard_index_in_bounds hash_neg_length 4
    [LocalWrite 0.5%float "b" (PInt 1)] "a" 0.25%float (PInt 2)). lia.
Defined.

(** ** Faults inside the [try] blocks *)

Section Faults.

Variable hash : string -> Z.

(** Each method is its index computation, where it has one, and then
    its block under [try] with the printing handler. *)
Lemma methods_wrap_their_try_blocks :
  (forall t key value,
     local_write hash t key value
     = (shard_index ← _get_shard_index hash key;
        try_except (local_write_try t key value shard_index)
          (fun e => print (error_line "local_write" e))))
  /\ (forall key,
        local_read hash key
        = (shard_index ← _get_shard_index hash key;
           try_except (local_read_try key shard_index)
             (fun e => print (error_line "local_read" e);; mret None)))
  /\ (forall t increment,
        critical_update t increment
        = try_except (critical_update_try t increment)
            (fun e => print (error_line "critical_update" e))).
Proof. done. Qed.

Lemma local_write_try_no_shards s t key value i :
  wf s -> num_shards s < 0 ->
  local_write_try t key value i s = mkResult (Raise IndexError) s [].
Proof.
  intros Hwf Hn. destruct (wf_no_shards s Hwf ltac:(lia)) as [Hl Hd].
  destruct s as [n locks data gl gc lr lw lt wc]; fields. subst locks data.
  unfold local_write_try, with_local_lock. eval_m.
  cbn [length]. by rewrite py_position_empty.
Qed.

Lemma local_write_try_int s t key v :
  wf s -> 1 <= num_shards s ->
  local_write_try t key (PInt v) (hash key `mod` num_shards s) s
  = mkResult (Return tt) (written hash t key (PInt v) s) [].
Proof.
  intros Hwf Hn.
  destruct (shard_ready hash key s Hwf Hn) as (Hi & Hpl & Hpd & Hlk & Hsh).
  unfold written, conflict. revert Hpl Hpd Hlk Hsh.
  generalize (shard_at hash key s) (shard_of hash key s). intros shard p Hpl Hpd Hlk Hsh.
  destruct s as [n locks data gl gc lr lw lt wc]; fields.
  unfold local_write_try, with_local_lock, py_getitem, py_add.
  eval_m. rewrite Hpl, Hlk. eval_m. rewrite Hpd, Hsh.
  case_bool_decide; eval_m.
  all: rewrite Hpd, Hsh; eval_m.
  all: rewrite Hpd; eval_m.
  all: norm_state; rewrite release_acquire, (alter_at _ _ _ _ Hsh) by done.
  all: unfold accumulate; repeat f_equal; lia.
Qed.

(** The fault of the counterexample: the addition raises with the wait
    and the conflict already recorded. *)
Lemma local_write_try_str s t key x :
  wf s -> 1 <= num_shards s ->
  local_write_try t key (PStr x) (hash key `mod` num_shards s) s
  = mkResult (Raise (TypeError "+" "str")) (written hash t key (PStr x) s) [].
Proof.
  intros Hwf Hn.
  destruct (shard_ready hash key s Hwf Hn) as (Hi & Hpl & Hpd & Hlk & Hsh).
  unfold written, conflict. revert Hpl Hpd Hlk Hsh.
  generalize (shard_at hash key s) (shard_of hash key s). intros shard p Hpl Hpd Hlk Hsh.
  destruct s as [n locks data gl gc lr lw lt wc]; fields.
  unfold local_write_try, with_local_lock, py_getitem, py_add.
  eval_m. rewrite Hpl, Hlk. eval_m. rewrite Hpd, Hsh.
  case_bool_decide; eval_m.
  all: rewrite Hpd, Hsh; eval_m.
  all: norm_state; rewrite release_acquire by done.
  all: repeat f_equal; lia.
Qed.

Lemma local_read_try_no_shards s key i :
  wf s -> num_shards s < 0 ->
  local_read_try key i s = mkResult (Raise IndexError) s [].
Proof.
  intros Hwf Hn. destruct (wf_no_shards s Hwf ltac:(lia)) as [Hl Hd].
  destruct s as [n locks data gl gc lr lw lt wc]; fields. subst locks data.
  unfold local_read_try, with_local_lock. eval_m.
  cbn [length]. by rewrite py_position_empty.
Qed.

Lemma local_read_try_returns s key :
  wf s -> 1 <= num_shards s ->
  local_read_try key (hash key `mod` num_shards s) s
  = mkResult (Return (shard_at hash key s !! key)) (read_done s) [].
Proof.
  intros Hwf Hn.
  destruct (shard_ready hash key s Hwf Hn) as (Hi & Hpl & Hpd & Hlk & Hsh).
  revert Hpl Hpd Hlk Hsh.
  generalize (shard_at hash key s) (shard_of hash key s). intros shard p Hpl Hpd Hlk Hsh.
  destruct s as [n locks data gl gc lr lw lt wc]; fields.
  unfold local_read_try, with_local_lock, py_getitem.
  eval_m. rewrite Hpl, Hlk. eval_m. rewrite Hpd, Hsh. eval_m.
  norm_state. unfold read_done; fields. by rewrite release_acquire.
Qed.

Lemma critical_update_try_int s t z :
  global_lock s = false ->
  critical_update_try t (PInt z) s = mkResult (Return tt) (updated t (PInt z) s) [].
Proof.
  intros Hg. destruct s as [n locks data gl gc lr lw lt wc]; fields. subst gl.
  unfold critical_update_try, with_global_lock, py_add. by eval_m.
Qed.

Lemma critical_update_try_str s t x :
  global_lock s = false ->
  critical_update_try t (PStr x) s
  = mkResult (Raise (TypeError "+=" "str"))
      (set_lock_wait_time (lock_wait_time s + t)%float s) [].
Proof.
  intros Hg. destruct s as [n locks data gl gc lr lw lt wc]; fields. subst gl.
  unfold critical_update_try, with_global_lock, py_add. by eval_m.
Qed.

(** C9, as amended: on a well-formed store whose shard count is not
    zero, when the [try] block of [local_write], [local_read] or
    [critical_update] raises [e], the call does not raise: it returns
    [None] after printing the one line ["Error in <method>: <e>"], and
    the script it is part of goes on with the next call.  No lock is
    held afterwards.  Nothing is undone: the object is left as the
    block left it when it raised, which is [at_fault]: the shards,
    [global_counter], [local_reads] and [local_writes] as before the
    call, [lock_wait_time] with the wait and [write_conflicts] with the
    conflict of the key when the addition raised after them, and the
    whole object as before the call when a lock subscript raised. *)
Theorem C9_fault_is_caught (c : call) (e : exn) (s : HybridDataStructure) :
  wf s ->
  num_shards s <> 0 ->
  single_method c = true ->
  outcome_of (try_block hash c s) = Raise e ->
  let r := exec hash c s in
  outcome_of r = Return None
  /\ printed r = [error_line (method_name c) e]
  /\ (forall cs, run hash (c :: cs) s = after (printed r) (run hash cs (final r)))
  /\ Forall (eq false) (local_locks (final r))
  /\ global_lock (final r) = false
  /\ final r = final (try_block hash c s)
  /\ final r = at_fault hash c e s
  /\ local_data (final r) = local_data s
  /\ global_counter (final r) = global_counter s
  /\ local_reads (final r) = local_reads s
  /\ local_writes (final r) = local_writes s
  /\ match c, e with
     | LocalWrite t key _, TypeError _ _ =>
         lock_wait_time (final r) = (lock_wait_time s + t)%float
         /\ write_conflicts (final r) = write_conflicts s + conflict hash key s
     | CriticalUpdate t _, TypeError _ _ =>
         lock_wait_time (final r) = (lock_wait_time s + t)%float
         /\ write_conflicts (final r) = write_conflicts s
     | _, _ => final r = s
     end.
Proof.
  intros Hwf Hn Hc Hfault r.
  pose proof Hwf as (Hl & Hd & Hf & Hg).
  assert (Hmain : r = mkResult (Return None) (at_fault hash c e s)
                        [error_line (method_name c) e]
                  /\ final (try_block hash c s) = at_fault hash c e s).
  { unfold r. revert Hfault.
    destruct c as [t key value|key|t increment|]; [| | |done];
      unfold try_block, exec, mbind, M_bind.
    - destruct (Z.lt_trichotomy (num_shards s) 0) as [Hneg|[H0|Hpos]]; [|done|].
      + rewrite local_write_try_no_shards, local_write_no_shards by done.
        by intros [= <-].
      + destruct value as [v|x].
        * rewrite local_write_try_int by (done || lia). done.
        * rewrite local_write_try_str, local_write_ok by (done || lia).
          by intros [= <-].
    - destruct (Z.lt_trichotomy (num_shards s) 0) as [Hneg|[H0|Hpos]]; [|done|].
      + rewrite local_read_try_no_shards, local_read_no_shards by done.
        by intros [= <-].
      + rewrite local_read_try_returns by (done || lia). done.
    - destruct increment as [z|x].
      + rewrite critical_update_try_int by done. done.
      + rewrite critical_update_try_str, critical_update_str by done.
        by intros [= <-]. }
  destruct Hmain as [Hr Hb]. rewrite Hb, Hr. fields.
  split; [done|]. split; [done|]. split.
  { intros cs. cbn [run]. unfold mbind, M_bind. fold r. by rewrite Hr. }
  destruct c as [t key value|key|t increment|]; [| | |done];
    destruct e; cbn [at_fault]; by repeat split.
Qed.

End Faults.

(** C9 as stated fails: [local_write("a", "x")] on that store faults on
    the addition, after [write_conflicts] was incremented; the fault is
    printed and the call returns, and the object is left with a
    conflict counted for a write that did not happen: the counters are
    neither as before the call nor those of a completed write. *)
Lemma C9_counterexample :
  let r := local_write hash_neg_length 0.25%float "a" (PStr "x") C9_store in
  outcome_of r = Return tt
  /\ printed r =
       ["Error in local_write: unsupported operand type(s) for +: 'int' and 'str'"]
  /\ write_conflicts C9_store = 0 /\ write_conflicts (final r) = 1
  /\ local_writes C9_store = 1 /\ local_writes (final r) = 1
  /\ local_data (final r) = local_data C9_store
  /\ shard_at hash_neg_length "a" (final r) !! "a" = Some 10.
Proof. vm_compute. repeat split. Qed.

(** The other two blocks can fault as well: the lock subscript of
    [local_read] on a store built with a negative shard count, and the
    addition of [critical_update] on a [str]. *)
Example local_read_try_faults :
  outcome_of (try_block hash_neg_length (LocalRead "a") (init (-2))) = Raise IndexError.
Proof. reflexivity. Qed.

Example critical_update_try_faults :
  outcome_of (try_block hash_neg_length (CriticalUpdate 0.5%float (PStr "x")) (init 4))
  = Raise (TypeError "+=" "str").
Proof. reflexivity. Qed.

Lemma C9_fault_is_caught_witness :
  let c := LocalWrite 0.25%float "a" (PStr "x") in
  let e := TypeError "+" "str" in
  let r := exec hash_neg_length c C9_store in
  outcome_of r = Return None
  /\ printed r = [error_line (method_name c) e]
  /\ (forall cs, run hash_neg_length (c :: cs) C9_store
                 = after (printed r) (run hash_neg_length cs (final r)))
  /\ Forall (eq false) (local_locks (final r))
  /\ global_lock (final r) = false
  /\ final r = final (try_block hash_neg_length c C9_store)
  /\ final r = at_fault hash_neg_length c e C9_store
  /\ local_data (final r) = local_data C9_store
  /\ global_counter (final r) = global_counter C9_store
  /\ local_reads (final r) = local_reads C9_store
  /\ local_writes (final r) = local_writes C9_store
  /\ lock_wait_time (final r) = (lock_wait_time C9_store + 0.25)%float
     /\ write_conflicts (final r)
        = write_conflicts C9_store + conflict hash_neg_length "a" C9_store.
Proof.
  apply (C9_fault_is_caught hash_neg_length (LocalWrite 0.25%float "a" (PStr "x"))
    (TypeError "+" "str") C9_store).
  - repeat split; vm_compute; repeat constructor.
  - vm_compute. discriminate.
  - reflexivity.
  - reflexivity.
Defined.

(** ** Scripts in general *)

Lemma mbind_return {S A B} (m : M S A) (k : A -> M S B) (s s1 : S) (a : A)
    (out : list string) :
  m s = mkResult (Return a) s1 out -> (m ≫= k) s = after out (k a s1).
Proof. intros H. unfold mbind, M_bind. by rewrite H. Qed.

Section Scripts.

Variable hash : string -> Z.


Lemma run_total (f : call -> Z) (g : HybridDataStructure -> Z) cs s :
  (forall c s', wf s' -> 1 <= num_shards s' -> g (post hash c s') = g s' + f c) ->
  wf s -> 1 <= num_shards s ->
  g (final (run hash cs s)) = g s + total f cs.
Proof.
  intros Hstep. revert s. induction cs as [|c cs IH]; intros s Hwf Hn.
  - cbn. lia.
  - destruct (run_cons hash c cs s Hwf Hn) as [_ ->].
    destruct (wf_post hash c s Hwf) as [Hwf' Hn'].
    rewrite IH, Hstep by (done || lia). unfold total. cbn. lia.
Qed.

Lemma difference_post_any c s :
  wf s -> 1 <= num_shards s ->
  difference (post hash c s) = difference s + gap_change c.
Proof.
  intros Hwf Hn. destruct c as [t key value|key|t increment|t1 t2 key value];
    cbn [post gap_change]; unfold difference.
  - rewrite total_local_sum_written by done. unfold written; fields. lia.
  - unfold total_local_sum, read_done; fields. lia.
  - unfold total_local_sum, updated; fields. lia.
  - change (total_local_sum (updated t2 value (written hash t1 key value s)))
      with (total_local_sum (written hash t1 key value s)).
    rewrite total_local_sum_written by done.
    unfold updated, written; fields. lia.
Qed.

(** X1: on a fresh store with at least one shard every script runs to
    its end, and the gap [global_counter - total_local_sum] it leaves
    is the sum of the integer increments of its stand-alone
    [critical_update] calls less the sum of the integer values of its
    stand-alone [local_write] calls. *)
Theorem gap_of_any_script (n : Z) (cs : list call) :
  1 <= n ->
  outcome_of (run hash cs (init n)) = Return tt
  /\ difference (final (run hash cs (init n))) = total gap_change cs.
Proof.
  intros Hn. split; [apply run_returns; [apply wf_init | done]|].
  rewrite (run_total gap_change difference); [|apply difference_post_any|apply wf_init|done].
  rewrite difference_init. lia.
Qed.

(** X2: after a script on a fresh store with at least one shard,
    [local_reads] is the number of [local_read] calls, [local_writes]
    the number of calls that handed an integer to [local_write], and
    [global_counter] the sum of the integers handed to
    [critical_update], stand-alone or inside [hybrid_operation]. *)
Theorem counters_count_calls (n : Z) (cs : list call) :
  1 <= n ->
  let s := final (run hash cs (init n)) in
  local_reads s = total is_read cs
  /\ local_writes s = total is_int_write cs
  /\ global_counter s = total counter_change cs.
Proof.
  intros Hn s. pose proof (wf_init n) as Hwf. unfold s. repeat split.
  - rewrite (run_total is_read local_reads); [done| |done|done].
    intros c s' _ _. destruct c as [? ? []| |? []|? ? ? []]; cbn; lia.
  - rewrite (run_total is_int_write local_writes); [done| |done|done].
    intros c s' _ _. destruct c as [? ? []| |? []|? ? ? []]; cbn; lia.
  - rewrite (run_total counter_change global_counter); [done| |done|done].
    intros c s' _ _. destruct c as [? ? []| |? []|? ? ? []]; cbn; lia.
Qed.


(** X3: with [num_shards = 0] the index computation divides by zero
    before the [try] is entered: [local_write], [local_read] and
    [hybrid_operation] raise [ZeroDivisionError] to the caller, print
    nothing and change nothing; [hybrid_operation] does not reach its
    [critical_update], and a script ends there. *)
Theorem zero_shards_raise (t1 t2 : float) (key : string) (value : pyval)
    (cs : list call) (s : HybridDataStructure) :
  num_shards s = 0 ->
  local_write hash t1 key value s = mkResult (Raise ZeroDivisionError) s []
  /\ local_read hash key s = mkResult (Raise ZeroDivisionError) s []
  /\ hybrid_operation hash t1 t2 key value s = mkResult (Raise ZeroDivisionError) s []
  /\ run hash (HybridOperation t1 t2 key value :: cs) s
     = mkResult (Raise ZeroDivisionError) s [].
Proof.
  intros Hn. rewrite local_write_zero, local_read_zero, hybrid_operation_zero by done.
  repeat split. cbn [run exec]. unfold mbind, M_bind.
  by rewrite hybrid_operation_zero.
Qed.

Lemma run_no_shards cs s :
  wf s -> num_shards s < 0 ->
  outcome_of (run hash cs s) = Return tt
  /\ local_data (final (run hash cs s)) = []
  /\ global_counter (final (run hash cs s)) = global_counter s + total counter_change cs.
Proof.
  revert s. induction cs as [|c cs IH]; intros s Hwf Hn.
  - destruct (wf_no_shards s Hwf ltac:(lia)) as [_ Hd]. cbn. repeat split; [done|lia].
  - destruct (exec_no_shards hash c s Hwf Hn) as [Ho Hs].
    destruct (wf_post_no_shards c s Hwf) as [Hwf' Hn'].
    destruct (IH (post_no_shards c s) Hwf' ltac:(lia)) as (IHo & IHd & IHg).
    rewrite run_final. cbn [run]. unfold mbind, M_bind.
    destruct (exec hash c s) as [o s' out]; fields. subst o s'.
    rewrite outcome_after. repeat split; [done..|].
    rewrite IHg. unfold total. cbn [fmap list_fmap foldr].
    destruct c; cbn [post_no_shards counter_change updated global_counter]; lia.
Qed.

(** X4: with a negative shard count there is no shard: every script
    still runs to its end, nothing is ever stored, [local_read] prints
    the index error and returns [None], and the gap is everything that
    was handed to [critical_update], the integers of the hybrid calls
    included. *)
Theorem negative_shards_store_nothing (n : Z) (cs : list call) (key : string) :
  n < 0 ->
  let s := final (run hash cs (init n)) in
  outcome_of (run hash cs (init n)) = Return tt
  /\ local_data s = []
  /\ difference s = total counter_change cs
  /\ local_read hash key s = mkResult (Return None) s [index_error_line "local_read"].
Proof.
  intros Hn s. pose proof (wf_init n) as Hwf.
  destruct (run_no_shards cs (init n) Hwf Hn) as (Ho & Hd & Hg).
  destruct (run_keeps hash cs (init n) Hwf) as [Hwf' Hn'].
  fold s in Hd, Hg, Hwf', Hn'. cbn [init num_shards global_counter] in Hn', Hg.
  split; [done|]. split; [done|]. split.
  - unfold difference, total_local_sum. rewrite Hd, Hg. cbn. lia.
  - apply local_read_no_shards; [done | lia].
Qed.

Lemma shard_of_written t key value key' s :
  shard_of hash key' (written hash t key value s) = shard_of hash key' s.
Proof. done. Qed.

Lemma lookup_written_ne s t key value key' :
  wf s -> 1 <= num_shards s -> key' <> key ->
  shard_at hash key' (written hash t key value s) !! key' = shard_at hash key' s !! key'.
Proof.
  intros Hwf Hn Hne. destruct value as [v|x]; [|done].
  destruct (shard_ready hash key s Hwf Hn) as (_ & _ & _ & _ & Hsh).
  unfold shard_at at 1. rewrite shard_of_written. unfold written; fields.
  destruct (decide (shard_of hash key' s = shard_of hash key s)) as [Heq|Hp].
  - rewrite Heq, list_lookup_insert_eq by (by eapply lookup_lt_Some).
    cbn [default from_option id]. unfold accumulate.
    rewrite lookup_insert_ne by done. unfold shard_at. by rewrite Heq.
  - rewrite list_lookup_insert_ne by done. done.
Qed.

(** X5: reading a key right after an integer write to it returns the
    value read before (0 for [None]) plus the written value; what a
    read of any other key returns is not changed by the write. *)
Theorem write_then_read (t : float) (key key' : string) (v : Z)
    (s : HybridDataStructure) :
  wf s ->
  1 <= num_shards s ->
  let s' := final (local_write hash t key (PInt v) s) in
  (forall old, outcome_of (local_read hash key s) = Return old ->
     outcome_of (local_read hash key s') = Return (Some (default 0 old + v)))
  /\ (key' <> key ->
      outcome_of (local_read hash key' s') = outcome_of (local_read hash key' s)).
Proof.
  intros Hwf Hn s'. unfold s'. rewrite local_write_ok by done. fields.
  assert (Hwf' : wf (written hash t key (PInt v) s)) by by apply wf_written.
  rewrite !local_read_ok by done. fields. split.
  - intros old [= <-]. by rewrite lookup_written.
  - intros Hne. by rewrite lookup_written_ne.
Qed.

Lemma keys_in_place_post c s :
  wf s -> 1 <= num_shards s -> keys_in_place hash s -> keys_in_place hash (post hash c s).
Proof.
  intros Hwf Hn Hk.
  assert (Hw : forall t key value, keys_in_place hash (written hash t key value s)).
  { intros t key [v|x]; [|done]. intros p shard key' Hp Hin.
    rewrite shard_of_written. unfold written in Hp; fields.
    destruct (shard_ready hash key s Hwf Hn) as (_ & _ & _ & _ & Hsh).
    destruct (decide (p = shard_of hash key s)) as [->|Hne].
    - rewrite list_lookup_insert_eq in Hp by (by eapply lookup_lt_Some).
      injection Hp as <-. unfold accumulate in Hin.
      destruct (decide (key' = key)) as [->|Hk']; [done|].
      rewrite lookup_insert_ne in Hin by done. by apply (Hk _ _ _ Hsh).
    - rewrite list_lookup_insert_ne in Hp by done. by apply (Hk _ _ _ Hp). }
  destruct c as [t key value|key|t increment|t1 t2 key value]; cbn [post];
    [apply Hw | done | done | apply Hw].
Qed.

(** X6: after any script on a fresh store with at least one shard,
    every stored key sits in the shard its hash selects, so no key is
    in two shards. *)
Theorem keys_stay_in_their_shard (n : Z) (cs : list call) :
  1 <= n ->
  let s := final (run hash cs (init n)) in
  keys_in_place hash s
  /\ forall p q shard1 shard2 key,
       local_data s !! p = Some shard1 -> local_data s !! q = Some shard2 ->
       is_Some (shard1 !! key) -> is_Some (shard2 !! key) -> p = q.
Proof.
  intros Hn s.
  assert (Hk : keys_in_place hash s).
  { apply (run_invariant hash (keys_in_place hash)); [apply keys_in_place_post|apply wf_init|done|].
    intros p shard key Hp Hin. unfold init in Hp; fields.
    apply lookup_replicate in Hp as [-> _]. by destruct Hin. }
  split; [done|]. intros p q shard1 shard2 key Hp Hq H1 H2.
  by rewrite (Hk _ _ _ Hp H1), (Hk _ _ _ Hq H2).
Qed.

Lemma size_accumulate (shard : gmap string Z) key v :
  Z.of_nat (size (accumulate key v shard))
  = Z.of_nat (size shard) + 1 - (if bool_decide (is_Some (shard !! key)) then 1 else 0).
Proof.
  unfold accumulate. destruct (shard !! key) as [a|] eqn:Hk.
  - rewrite map_size_insert_Some by done.
    rewrite bool_decide_eq_true_2 by done. lia.
  - rewrite map_size_insert_None by done.
    rewrite bool_decide_eq_false_2 by (by intros [? ?]). lia.
Qed.

Lemma stored_keys_written s t key v :
  wf s -> 1 <= num_shards s ->
  stored_keys (written hash t key (PInt v) s) = stored_keys s + 1 - conflict hash key s.
Proof.
  intros Hwf Hn. destruct (shard_ready hash key s Hwf Hn) as (_ & _ & _ & _ & Hsh).
  unfold stored_keys, written, conflict; fields.
  rewrite (sum_insert _ _ _ _ _ Hsh), size_accumulate. lia.
Qed.

Lemma run_total_if (Q : call -> bool) (f : call -> Z) (g : HybridDataStructure -> Z) cs s :
  (forall c s', Q c = true -> wf s' -> 1 <= num_shards s' ->
     g (post hash c s') = g s' + f c) ->
  forallb Q cs = true ->
  wf s -> 1 <= num_shards s ->
  g (final (run hash cs s)) = g s + total f cs.
Proof.
  intros Hstep. revert s. induction cs as [|c cs IH]; intros s HQ Hwf Hn.
  - cbn. lia.
  - cbn [forallb] in HQ. apply andb_prop in HQ as [Hc Hcs].
    destruct (run_cons hash c cs s Hwf Hn) as [_ ->].
    destruct (wf_post hash c s Hwf) as [Hwf' Hn'].
    rewrite IH, Hstep by (done || lia). unfold total. cbn. lia.
Qed.

(** X7: after a script that passes integers only, on a fresh store
    with at least one shard, the number of stored keys is
    [local_writes - write_conflicts]. *)
Theorem stored_keys_are_writes_less_conflicts (n : Z) (cs : list call) :
  1 <= n ->
  forallb int_valued cs = true ->
  let s := final (run hash cs (init n)) in
  stored_keys s = local_writes s - write_conflicts s.
Proof.
  intros Hn Hcs s.
  assert (H : stored_keys s - local_writes s + write_conflicts s
    = stored_keys (init n) - local_writes (init n) + write_conflicts (init n)
      + total (fun _ => 0) cs).
  { apply (run_total_if int_valued (fun _ => 0)
      (fun s => stored_keys s - local_writes s + write_conflicts s));
      [|done|apply wf_init|done].
    intros c s' Hc Hwf' Hn'.
    destruct c as [t key [v|x]|key|t [z|x]|t1 t2 key [v|x]]; try done; cbn [post].
    - rewrite stored_keys_written by done. unfold written; fields. lia.
    - unfold stored_keys, read_done; fields. lia.
    - unfold stored_keys, updated; fields. lia.
    - change (stored_keys (updated t2 (PInt v) (written hash t1 key (PInt v) s')))
        with (stored_keys (written hash t1 key (PInt v) s')).
      rewrite stored_keys_written by done. unfold updated, written; fields.
      lia. }
  assert (H0 : stored_keys (init n) = 0).
  { unfold stored_keys, init; fields.
    induction (Z.to_nat n) as [|k IH]; [done|].
    cbn [replicate fmap list_fmap foldr] in *. rewrite map_size_empty. lia. }
  assert (Ht : total (fun _ => 0) cs = 0).
  { clear. unfold total. induction cs as [|c cs' IH]; [done|]. cbn in *. lia. }
  cbn [init local_writes write_conflicts] in H. lia.
Qed.

Lemma present_post c key s :
  wf s -> 1 <= num_shards s ->
  is_Some (shard_at hash key s !! key) ->
  is_Some (shard_at hash key (post hash c s) !! key).
Proof.
  intros Hwf Hn Hin.
  assert (Hw : forall t key' value,
    is_Some (shard_at hash key (written hash t key' value s) !! key)).
  { intros t key' value. destruct (decide (key = key')) as [<-|Hne].
    - destruct value as [v|x]; [|done]. rewrite lookup_written by done. eauto.
    - by rewrite lookup_written_ne. }
  destruct c as [t key' value|key'|t increment|t1 t2 key' value]; cbn [post];
    [apply Hw | done | done | apply Hw].
Qed.

(** X8: no method removes a key: once [local_read] has returned a
    value for a key, it returns a value for it after any further
    script. *)
Theorem written_keys_stay (n : Z) (cs1 cs2 : list call) (key : string) (v : Z) :
  1 <= n ->
  let s1 := final (run hash cs1 (init n)) in
  let s2 := final (run hash cs2 s1) in
  outcome_of (local_read hash key s1) = Return (Some v) ->
  exists v', outcome_of (local_read hash key s2) = Return (Some v').
Proof.
  intros Hn s1 s2 Hr.
  destruct (run_keeps hash cs1 (init n) (wf_init n)) as [Hwf1 Hn1].
  fold s1 in Hwf1, Hn1. cbn [init num_shards] in Hn1.
  destruct (run_keeps hash cs2 s1 Hwf1) as [Hwf2 Hn2]. fold s2 in Hwf2, Hn2.
  rewrite local_read_ok in Hr by (done || lia). fields. injection Hr as Hr.
  rewrite local_read_ok by (done || lia). fields.
  assert (Hin : is_Some (shard_at hash key s2 !! key)).
  { unfold s2. apply (run_invariant hash (fun s => is_Some (shard_at hash key s !! key)));
      [intros c s'; apply present_post | done | lia | by rewrite Hr]. }
  destruct Hin as [v' Hv']. exists v'. by rewrite Hv'.
Qed.


End Scripts.
(** ** The worker on its queue *)

Section WorkerFacts.

Variable hash : string -> Z.

Lemma run_single c s :
  wf s -> 1 <= num_shards s -> final (run hash [c] s) = post hash c s.
Proof. intros Hwf Hn. by destruct (run_cons hash c [] s Hwf Hn) as [_ ->]. Qed.

Lemma run_app cs1 cs2 s :
  wf s -> 1 <= num_shards s ->
  final (run hash (cs1 ++ cs2) s) = final (run hash cs2 (final (run hash cs1 s))).
Proof.
  revert s. induction cs1 as [|c cs1 IH]; intros s Hwf Hn; [done|].
  cbn [app]. destruct (run_cons hash c (cs1 ++ cs2) s Hwf Hn) as [_ ->].
  destruct (run_cons hash c cs1 s Hwf Hn) as [_ ->].
  destruct (wf_post hash c s Hwf) as [Hwf' Hn']. apply IH; [done | lia].
Qed.

(** One turn of the loop is the run of the call the task becomes. *)
Lemma dispatch_ok d tk s :
  wf s -> 1 <= num_shards s ->
  outcome_of (dispatch hash d tk s) = Return tt
  /\ final (dispatch hash d tk s) = final (run hash (call_of d tk) s)
  /\ (int_task tk = true -> printed (dispatch hash d tk s) = []).
Proof.
  intros Hwf Hn. destruct tk as [[task_type key] value].
  unfold dispatch, call_of, int_task. cbn [fst snd].
  repeat case_bool_decide.
  - destruct (coin d <? 0.5)%float.
    + rewrite run_single, local_write_ok by done. cbn [post]. fields.
      repeat split. by destruct value.
    + rewrite run_single by done. unfold mbind, M_bind.
      rewrite local_read_ok by done. by cbn.
  - rewrite run_single, critical_update_ok by (done || apply Hwf). cbn [post]. fields.
    repeat split. by destruct value.
  - rewrite run_single, hybrid_operation_ok by done. cbn [post]. fields.
    repeat split. by destruct value.
  - done.
Qed.

Lemma worker_loop_ok name env queue i s :
  wf s -> 1 <= num_shards s ->
  outcome_of (worker_loop hash name env i queue s) = Return tt
  /\ final (worker_loop hash name env i queue s)
     = (final (run hash (calls_of env i queue) s), [])
  /\ (forallb int_task queue = true ->
      printed (worker_loop hash name env i queue s)
      = ((fun tk : task => processing_line name tk.1.1) <$> queue) ++ [exiting_line name]).
Proof.
  revert i s. induction queue as [|tk rest IH]; intros i s Hwf Hn; [done|].
  destruct (dispatch_ok (env i) tk s Hwf Hn) as (Ho & Hs & Hp).
  cbn [worker_loop calls_of]. unfold mbind, M_bind, print.
  destruct (dispatch hash (env i) tk s) as [o s' out]; fields. subst o s'.
  cbn [after].
  assert (Hwf' : wf (final (run hash (call_of (env i) tk) s))
                 /\ num_shards (final (run hash (call_of (env i) tk) s)) = num_shards s)
    by by apply run_keeps.
  destruct Hwf' as [Hwf' Hn'].
  destruct (IH (S i) _ Hwf' ltac:(lia)) as (IHo & IHs & IHp).
  rewrite outcome_after, final_after, run_app by done.
  split; [done|]. split; [done|].
  cbn [forallb]. intros Hq. apply andb_prop in Hq as [Htk Hq].
  destruct (worker_loop hash name env (S i) rest _) as [o' s'' out']; fields.
  cbn [after printed]. rewrite (Hp Htk), (IHp Hq). done.
Qed.

(** X9: on a well-formed store with at least one shard, a worker alone
    on the queue returns with the queue empty, and leaves the object
    that the script of its tasks' calls leaves: the tasks in queue
    order, a [local] task as a write or a read by its draw, a task of
    an unknown kind as nothing. *)
Theorem worker_runs_the_queue (name : string) (env : nat -> turn)
    (queue : list task) (s : HybridDataStructure) :
  wf s ->
  1 <= num_shards s ->
  let r := worker hash name env queue s in
  outcome_of r = Return tt
  /\ final r = (final (run hash (calls_of env 0 queue) s), []).
Proof.
  intros Hwf Hn r. unfold r, worker.
  destruct (worker_loop_ok name env queue 0%nat s Hwf Hn) as (Ho & Hs & _).
  by rewrite outcome_after, final_after.
Qed.

(** X10: when every task carries an integer, the worker prints the
    start line, one processing line per task in queue order and the
    exit line, and no error line. *)
Theorem worker_prints_no_error (name : string) (env : nat -> turn)
    (queue : list task) (s : HybridDataStructure) :
  wf s ->
  1 <= num_shards s ->
  forallb int_task queue = true ->
  printed (worker hash name env queue s)
  = started_line name
    :: ((fun tk : task => processing_line name tk.1.1) <$> queue)
    ++ [exiting_line name].
Proof.
  intros Hwf Hn Hq. unfold worker.
  destruct (worker_loop_ok name env queue 0%nat s Hwf Hn) as (_ & _ & Hp).
  destruct (worker_loop hash name env 0 queue s) as [o s' out]; fields.
  cbn [after printed app]. by rewrite (Hp Hq).
Qed.

Lemma shard_calls d tk :
  int_task tk = true ->
  total is_read (call_of d tk) + total is_int_write (call_of d tk)
  = if shard_task tk then 1 else 0.
Proof.
  destruct tk as [[task_type key] [v|x]]; [|done]. intros _.
  unfold call_of, shard_task, total. cbn [fst snd].
  repeat case_bool_decide; try destruct (coin d <? 0.5)%float;
    simplify_eq; cbn; try done.
Qed.

Lemma total_app f cs1 cs2 : total f (cs1 ++ cs2) = total f cs1 + total f cs2.
Proof.
  unfold total. induction cs1 as [|c cs1 IH]; [done|]. cbn in *. lia.
Qed.

(** X11: a worker alone on a queue of integer tasks, on a fresh store
    with at least one shard, leaves [local_reads + local_writes] equal
    to the number of [local] and [hybrid] tasks: each of them is one
    read or one write, and a [critical] task or a task of an unknown
    kind is neither. *)
Theorem worker_counts_shard_tasks (name : string) (env : nat -> turn)
    (queue : list task) (n : Z) :
  1 <= n ->
  forallb int_task queue = true ->
  let s := (final (worker hash name env queue (init n))).1 in
  local_reads s + local_writes s
  = Z.of_nat (length (filter (fun tk => shard_task tk = true) queue)).
Proof.
  intros Hn Hq s. pose proof (wf_init n) as Hwf.
  unfold s, worker. rewrite final_after.
  destruct (worker_loop_ok name env queue 0%nat (init n) Hwf Hn) as (_ & -> & _).
  cbn [fst].
  rewrite (run_total hash is_read local_reads), (run_total hash is_int_write local_writes);
    [|by intros [? ? []| |? []|? ? ? []] ? ? ?; cbn; lia|done|done
     |by intros [? ? []| |? []|? ? ? []] ? ? ?; cbn; lia|done|done].
  cbn [init local_reads local_writes]. generalize 0%nat as i.
  induction queue as [|tk rest IH]; intros i; [done|].
  cbn [forallb] in Hq. apply andb_prop in Hq as [Htk Hq].
  cbn [calls_of]. rewrite !total_app.
  pose proof (shard_calls (env i) tk Htk) as Hc.
  specialize (IH Hq (S i)). rewrite filter_cons.
  destruct (shard_task tk); case_decide; try done; simpl length; lia.
Qed.

(** X12: with [num_shards = 0] the first [local] or [hybrid] task ends
    the worker: the [ZeroDivisionError] is not the [queue.Empty] the
    loop catches, so the worker raises it, with the rest of the queue
    left as it is and the object unchanged. *)
Theorem worker_raises_on_zero_shards (name : string) (env : nat -> turn)
    (tk : task) (rest : list task) (s : HybridDataStructure) :
  num_shards s = 0 ->
  shard_task tk = true ->
  worker hash name env (tk :: rest) s
  = mkResult (Raise ZeroDivisionError) (s, rest)
      [started_line name; processing_line name tk.1.1].
Proof.
  intros Hn Htk. destruct tk as [[task_type key] value].
  unfold shard_task in Htk. cbn [fst snd] in *.
  unfold worker. cbn [worker_loop]. unfold mbind, M_bind, print, dispatch.
  cbn [fst snd].
  apply orb_prop in Htk as [H|H]; apply bool_decide_eq_true_1 in H; subst task_type.
  - rewrite bool_decide_eq_true_2 by done.
    destruct (coin (env 0%nat) <? 0.5)%float.
    + by rewrite local_write_zero.
    + unfold mbind, M_bind. by rewrite local_read_zero.
  - rewrite !bool_decide_eq_false_2 by done.
    rewrite bool_decide_eq_true_2 by done. by rewrite hybrid_operation_zero.
Qed.

Lemma gap_of_task d tk : total gap_change (call_of d tk) = task_gap d tk.
Proof.
  destruct tk as [[task_type key] value]. unfold call_of, task_gap, total.
  cbn [fst snd].
  repeat case_bool_decide; subst; try done;
    try destruct (coin d <? 0.5)%float; cbn; lia.
Qed.

(** X13: a worker alone on the queue, on a fresh store with at least
    one shard, leaves a gap [global_counter - total_local_sum] equal to
    the integers of the [critical] tasks less the integers of the
    [local] tasks that drew a write; [hybrid] tasks, reads and tasks of
    an unknown kind do not count. *)
Theorem worker_gap (name : string) (env : nat -> turn) (queue : list task) (n : Z) :
  1 <= n ->
  difference (final (worker hash name env queue (init n))).1 = queue_gap env 0 queue.
Proof.
  intros Hn. pose proof (wf_init n) as Hwf. unfold worker. rewrite final_after.
  destruct (worker_loop_ok name env queue 0%nat (init n) Hwf Hn) as (_ & -> & _).
  cbn [fst].
  rewrite (run_total hash gap_change difference);
    [|apply difference_post_any|done|done].
  rewrite difference_init. generalize 0%nat as i.
  induction queue as [|tk rest IH]; intros i; [done|].
  cbn [calls_of queue_gap]. rewrite total_app, gap_of_task.
  specialize (IH (S i)). lia.
Qed.

End WorkerFacts.
(** ** Which lock a method needs *)

Section Locks.

Variable hash : string -> Z.

Lemma shard_position key s :
  length (local_locks s) = Z.to_nat (num_shards s) ->
  length (local_data s) = Z.to_nat (num_shards s) ->
  1 <= num_shards s ->
  py_position (length (local_locks s)) (hash key `mod` num_shards s)
    = Some (shard_of hash key s)
  /\ py_position (length (local_data s)) (hash key `mod` num_shards s)
    = Some (shard_of hash key s)
  /\ local_data s !! shard_of hash key s = Some (shard_at hash key s)
  /\ (shard_of hash key s < length (local_locks s))%nat.
Proof.
  intros Hl Hd Hn.
  pose proof (Z.mod_pos_bound (hash key) (num_shards s) ltac:(lia)) as Hi.
  unfold shard_at, shard_of. rewrite Hl, Hd, !py_position_in_range by lia.
  repeat split; [|lia].
  destruct (lookup_lt_is_Some_2 (local_data s)
    (Z.to_nat (hash key `mod` num_shards s)) ltac:(lia)) as [m Hm].
  by rewrite Hm.
Qed.

Lemma local_write_lock_free s t key v :
  length (local_locks s) = Z.to_nat (num_shards s) ->
  length (local_data s) = Z.to_nat (num_shards s) ->
  1 <= num_shards s ->
  local_locks s !! shard_of hash key s = Some false ->
  local_write hash t key (PInt v) s
  = mkResult (Return tt) (written hash t key (PInt v) s) [].
Proof.
  intros Hl Hd Hn Hlk.
  destruct (shard_position key s Hl Hd Hn) as (Hpl & Hpd & Hsh & _).
  unfold written, conflict. revert Hpl Hpd Hlk Hsh.
  generalize (shard_at hash key s) (shard_of hash key s). intros shard p Hpl Hpd Hlk Hsh.
  destruct s as [n locks data gl gc lr lw lt wc]; fields.
  unfold local_write, _get_shard_index, with_local_lock, py_getitem, py_add.
  eval_m. rewrite bool_decide_eq_false_2 by lia. eval_m.
  rewrite Hpl, Hlk. eval_m. rewrite Hpd, Hsh.
  case_bool_decide; eval_m.
  all: rewrite Hpd, Hsh; eval_m.
  all: rewrite Hpd; eval_m.
  all: norm_state; rewrite release_acquire, (alter_at _ _ _ _ Hsh) by done.
  all: unfold accumulate; repeat f_equal; lia.
Qed.

Lemma local_write_lock_held s t key value :
  length (local_locks s) = Z.to_nat (num_shards s) ->
  length (local_data s) = Z.to_nat (num_shards s) ->
  1 <= num_shards s ->
  local_locks s !! shard_of hash key s = Some true ->
  local_write hash t key value s = mkResult Blocked s [].
Proof.
  intros Hl Hd Hn Hlk.
  destruct (shard_position key s Hl Hd Hn) as (Hpl & _ & _ & _).
  revert Hpl Hlk. generalize (shard_of hash key s). intros p Hpl Hlk.
  destruct s as [n locks data gl gc lr lw lt wc]; fields.
  unfold local_write, _get_shard_index, with_local_lock.
  eval_m. rewrite bool_decide_eq_false_2 by lia. eval_m.
  rewrite Hpl, Hlk. by eval_m.
Qed.

(** X19: a write takes the lock of its key's shard and no other.  With
    that lock free it returns, does the whole write and leaves every
    lock flag as it found it, whatever other shard locks or the global
    lock are held; with that lock held it waits for ever and changes
    nothing. *)
Theorem local_write_needs_only_its_lock (t : float) (key : string) (v : Z)
    (s : HybridDataStructure) :
  length (local_locks s) = Z.to_nat (num_shards s) ->
  length (local_data s) = Z.to_nat (num_shards s) ->
  1 <= num_shards s ->
  (local_locks s !! shard_of hash key s = Some false ->
   local_write hash t key (PInt v) s
   = mkResult (Return tt) (written hash t key (PInt v) s) []
   /\ local_locks (written hash t key (PInt v) s) = local_locks s
   /\ global_lock (written hash t key (PInt v) s) = global_lock s)
  /\ (local_locks s !! shard_of hash key s = Some true ->
      local_write hash t key (PInt v) s = mkResult Blocked s []).
Proof.
  intros Hl Hd Hn. split.
  - intros Hlk. by rewrite local_write_lock_free.
  - intros Hlk. by apply local_write_lock_held.
Qed.

Lemma critical_update_lock_held s t increment :
  global_lock s = true -> critical_update t increment s = mkResult Blocked s [].
Proof.
  intros Hg. destruct s as [n locks data gl gc lr lw lt wc]; fields. subst gl.
  unfold critical_update, with_global_lock. by eval_m.
Qed.

(** X20: [hybrid_operation] is two critical sections, not one.  With
    the shard lock free and the global lock held, it does the whole
    write, releases the shard lock, and then waits for ever for the
    global lock: the write is in the shard and [global_counter] has
    not moved. *)
Theorem hybrid_operation_is_not_atomic (t1 t2 : float) (key : string) (v : Z)
    (s : HybridDataStructure) :
  length (local_locks s) = Z.to_nat (num_shards s) ->
  length (local_data s) = Z.to_nat (num_shards s) ->
  1 <= num_shards s ->
  local_locks s !! shard_of hash key s = Some false ->
  global_lock s = true ->
  let r := hybrid_operation hash t1 t2 key (PInt v) s in
  r = mkResult Blocked (written hash t1 key (PInt v) s) []
  /\ local_locks (final r) = local_locks s
  /\ global_counter (final r) = global_counter s
  /\ total_local_sum (final r) = total_local_sum s + v.
Proof.
  intros Hl Hd Hn Hlk Hg r.
  assert (Hr : r = mkResult Blocked (written hash t1 key (PInt v) s) []).
  { unfold r, hybrid_operation.
    rewrite (mbind_return _ _ _ _ _ _ (local_write_lock_free s t1 key v Hl Hd Hn Hlk)).
    by rewrite critical_update_lock_held. }
  rewrite Hr. fields. repeat split; try done.
  destruct (shard_position key s Hl Hd Hn) as (_ & _ & Hsh & _).
  unfold total_local_sum, written; fields.
  rewrite (sum_insert _ _ _ _ _ Hsh), shard_sum_accumulate. lia.
Qed.

End Locks.

(** ** The first version of the class: proofs *)

Module FirstVersionFacts.

Import FirstVersion.

Section Facts.

Variable hash : string -> Z.

Lemma first_wf_init (n : Z) : wf (init n).
Proof.
  unfold wf, init; cbn. rewrite !length_replicate.
  repeat split. apply Forall_forall. intros b Hb.
  by apply elem_of_replicate in Hb as [-> _].
Qed.

Lemma first_shard_ready key s :
  wf s -> 1 <= num_shards s ->
  let i := hash key `mod` num_shards s in
  py_position (length (local_locks s)) i = Some (shard_of hash key s)
  /\ py_position (length (local_data s)) i = Some (shard_of hash key s)
  /\ local_locks s !! shard_of hash key s = Some false
  /\ local_data s !! shard_of hash key s = Some (shard_at hash key s).
Proof.
  intros (Hl & Hd & Hf & Hg) Hn i.
  pose proof (Z.mod_pos_bound (hash key) (num_shards s) ltac:(lia)) as Hi.
  fold i in Hi. unfold shard_at, shard_of. fold i.
  rewrite Hl, Hd, !py_position_in_range by lia.
  repeat split.
  - apply free_lookup; [done | lia].
  - destruct (lookup_lt_is_Some_2 (local_data s) (Z.to_nat i) ltac:(lia)) as [m Hm].
    by rewrite Hm.
Qed.

Lemma first_local_write_ok s key v :
  wf s -> 1 <= num_shards s ->
  local_write hash key v s = mkResult (Return tt) (written hash key v s) [].
Proof.
  intros Hwf Hn.
  destruct (first_shard_ready key s Hwf Hn) as (Hpl & Hpd & Hlk & Hsh).
  unfold written. revert Hpl Hpd Hlk Hsh.
  generalize (shard_at hash key s) (shard_of hash key s). intros shard p Hpl Hpd Hlk Hsh.
  destruct s as [n locks data gl gc lr lw];
    cbn [num_shards local_locks local_data global_lock global_counter
         local_reads local_writes] in *.
  unfold local_write, _get_shard_index, with_local_lock, py_getitem.
  eval_first. rewrite bool_decide_eq_false_2 by lia. eval_first.
  rewrite Hpl, Hlk. eval_first. rewrite Hpd, Hsh.
  unfold accumulate.
  destruct (shard !! key) as [acc|]; eval_first;
    norm_first; rewrite release_acquire, (alter_at _ _ _ _ Hsh) by done; done.
Qed.

Lemma first_wf_written s key v :
  wf s -> wf (written hash key v s) /\ num_shards (written hash key v s) = num_shards s.
Proof.
  intros (Hl & Hd & Hf & Hg). unfold wf, written; cbn.
  by rewrite length_insert.
Qed.

Lemma first_lookup_written s key v :
  wf s -> 1 <= num_shards s ->
  shard_at hash key (written hash key v s) !! key
  = Some (default 0 (shard_at hash key s !! key) + v).
Proof.
  intros Hwf Hn. destruct (first_shard_ready key s Hwf Hn) as (_ & _ & _ & Hsh).
  unfold shard_at at 1. unfold written, shard_of; cbn [local_data num_shards].
  fold (shard_of hash key s).
  rewrite list_lookup_insert_eq by (by eapply lookup_lt_Some).
  unfold accumulate. apply lookup_insert_eq.
Qed.

(** The accumulation property of C2 on the first version: after the
    writes [v :: vs] to one key of a fresh store with at least one
    shard, the key holds their sum. *)
Lemma first_writes_accumulate (n : Z) (key : string) (v : Z) (vs : list Z) :
  1 <= n ->
  let r := write_all hash key (v :: vs) (init n) in
  outcome_of r = Return tt
  /\ shard_at hash key (final r) !! key = Some (foldr Z.add 0 (v :: vs)).
Proof.
  intros Hn.
  assert (Hgen : forall ws s, wf s -> 1 <= num_shards s ->
    outcome_of (write_all hash key ws s) = Return tt
    /\ shard_at hash key (final (write_all hash key ws s)) !! key =
       match ws with
       | [] => shard_at hash key s !! key
       | _ => Some (default 0 (shard_at hash key s !! key) + foldr Z.add 0 ws)
       end).
  { induction ws as [|w ws IH]; intros s Hwf Hs; [done|].
    cbn [write_all]. unfold mbind, M_bind.
    rewrite first_local_write_ok by done.
    destruct (first_wf_written s key w Hwf) as [Hwf' Hn'].
    destruct (IH (written hash key w s) Hwf' ltac:(lia)) as [Ho Hv].
    rewrite outcome_after, final_after. split; [done|].
    rewrite Hv, first_lookup_written by done.
    destruct ws; cbn; f_equal; lia. }
  intros r. destruct (Hgen (v :: vs) (init n) (first_wf_init n) Hn) as [Ho Hv].
  split; [done|]. unfold r. rewrite Hv.
  assert (Hfresh : shard_at hash key (init n) !! key = None).
  { unfold shard_at, init; cbn [local_data].
    destruct (replicate (Z.to_nat n) (∅ : gmap string Z) !! _) as [m|] eqn:Hm;
      cbn [default from_option id]; [|done].
    by apply lookup_replicate in Hm as [-> _]. }
  rewrite Hfresh. cbn [default from_option id]. f_equal; lia.
Qed.

(** The pairing of C6 on the first version. *)
Lemma first_hybrid_is_write_then_update (key : string) (v : Z) (s : HybridDataStructure) :
  hybrid_operation hash key v s = write_then_update hash key v s.
Proof.
  unfold hybrid_operation, write_then_update, mbind, M_bind.
  destruct (local_write hash key v s) as [[[]|e|] s1 out1]; [|done..].
  by destruct (critical_update v s1) as [o s2 out2].
Qed.

End Facts.

Section DemoFacts.

Variable hash : string -> Z.

Lemma first_critical_update_ok s increment :
  global_lock s = false ->
  critical_update increment s = mkResult (Return tt) (updated increment s) [].
Proof.
  intros Hg. destruct s as [n locks data gl gc lr lw]; cbn in Hg. subst gl.
  unfold critical_update, with_global_lock. by eval_first.
Qed.

Lemma first_local_read_ok s key :
  wf s -> 1 <= num_shards s ->
  local_read hash key s
  = mkResult (Return (shard_at hash key s !! key)) (read_done s) [].
Proof.
  intros Hwf Hn.
  destruct (first_shard_ready hash key s Hwf Hn) as (Hpl & Hpd & Hlk & Hsh).
  revert Hpl Hpd Hlk Hsh.
  generalize (shard_at hash key s) (shard_of hash key s). intros shard p Hpl Hpd Hlk Hsh.
  destruct s as [n locks data gl gc lr lw];
    cbn [num_shards local_locks local_data global_lock global_counter
         local_reads local_writes] in *.
  unfold local_read, _get_shard_index, with_local_lock, py_getitem.
  eval_first. rewrite bool_decide_eq_false_2 by lia. eval_first.
  rewrite Hpl, Hlk. eval_first. rewrite Hpd, Hsh. eval_first.
  norm_first. unfold read_done. cbn. by rewrite release_acquire.
Qed.

Lemma first_hybrid_operation_ok s key v :
  wf s -> 1 <= num_shards s ->
  hybrid_operation hash key v s
  = mkResult (Return tt) (updated v (written hash key v s)) [].
Proof.
  intros Hwf Hn. unfold hybrid_operation, mbind, M_bind.
  rewrite first_local_write_ok by done. cbn [after].
  destruct (first_wf_written hash s key v Hwf) as [(_ & _ & _ & Hg) _].
  by rewrite first_critical_update_ok.
Qed.

Lemma first_wf_updated s increment :
  wf s -> wf (updated increment s) /\ num_shards (updated increment s) = num_shards s.
Proof. by intros (Hl & Hd & Hf & Hg). Qed.

Lemma first_wf_read_done s :
  wf s -> wf (read_done s) /\ num_shards (read_done s) = num_shards s.
Proof. by intros (Hl & Hd & Hf & Hg). Qed.

Lemma first_no_shards s :
  wf s -> num_shards s < 0 -> local_locks s = [].
Proof. intros (Hl & _) Hn. apply length_zero_iff_nil. lia. Qed.

(** X14: the first version has no [try]: with a negative shard count
    [local_write], [local_read] and [hybrid_operation] raise
    [IndexError] to the caller and change nothing, so
    [hybrid_operation] leaves [global_counter] alone; with no shard at
    all they raise [ZeroDivisionError]. *)
Theorem first_version_faults_propagate (key : string) (v : Z) (s : HybridDataStructure) :
  wf s ->
  num_shards s <= 0 ->
  let e := if bool_decide (num_shards s = 0) then ZeroDivisionError else IndexError in
  local_write hash key v s = mkResult (Raise e) s []
  /\ local_read hash key s = mkResult (Raise e) s []
  /\ hybrid_operation hash key v s = mkResult (Raise e) s [].
Proof.
  intros Hwf Hn e.
  assert (Hw : local_write hash key v s = mkResult (Raise e) s []).
  { unfold e. pose proof Hwf as (Hl & _).
    destruct s as [n locks data gl gc lr lw];
      cbn [num_shards local_locks local_data] in *.
    unfold local_write, _get_shard_index, with_local_lock. eval_first.
    case_bool_decide; [done|]. eval_first.
    rewrite Hl. replace (Z.to_nat n) with 0%nat by lia.
    by rewrite py_position_empty. }
  split; [done|]. split.
  - unfold e. pose proof Hwf as (Hl & _).
    destruct s as [n locks data gl gc lr lw];
      cbn [num_shards local_locks local_data] in *.
    unfold local_read, _get_shard_index, with_local_lock. eval_first.
    case_bool_decide; [done|]. eval_first.
    rewrite Hl. replace (Z.to_nat n) with 0%nat by lia.
    by rewrite py_position_empty.
  - unfold hybrid_operation, mbind, M_bind. by rewrite Hw.
Qed.

Lemma first_total_local_sum_written s key v :
  wf s -> 1 <= num_shards s ->
  total_local_sum (written hash key v s) = total_local_sum s + v.
Proof.
  intros Hwf Hn. destruct (first_shard_ready hash key s Hwf Hn) as (_ & _ & _ & Hsh).
  unfold total_local_sum, written; cbn [local_data].
  rewrite (sum_insert _ _ _ _ _ Hsh), shard_sum_accumulate. lia.
Qed.

(** The hybrid loop, for any number of turns. *)
Lemma first_hybrid_loop key val k start s :
  wf s -> 1 <= num_shards s ->
  let r := for_from start k (fun i => hybrid_operation hash key (val i)) s in
  outcome_of r = Return tt
  /\ printed r = []
  /\ global_counter (final r) = global_counter s + sum_from val start k
  /\ total_local_sum (final r) = total_local_sum s + sum_from val start k
  /\ local_writes (final r) = local_writes s + Z.of_nat k
  /\ local_reads (final r) = local_reads s
  /\ shard_at hash key (final r) !! key =
     match k with
     | O => shard_at hash key s !! key
     | _ => Some (default 0 (shard_at hash key s !! key) + sum_from val start k)
     end.
Proof.
  revert start s. induction k as [|k IH]; intros start s Hwf Hn r.
  - unfold r. cbn. repeat split; lia.
  - unfold r. cbn [for_from]. unfold mbind, M_bind.
    rewrite first_hybrid_operation_ok by done. cbn [after].
    set (s1 := updated (val start) (written hash key (val start) s)).
    destruct (first_wf_written hash s key (val start) Hwf) as [Hwf0 Hn0].
    destruct (first_wf_updated (written hash key (val start) s) (val start) Hwf0)
      as [Hwf1 Hn1].
    fold s1 in Hwf1, Hn1.
    destruct (IH (S start) s1 Hwf1 ltac:(lia)) as (Ho & Hp & Hg & Ht & Hw & Hr & Hk).
    destruct (for_from (S start) k _ s1) as [o s' out]; cbn [outcome_of final printed] in *.
    subst o out. cbn [after outcome_of final printed app sum_from].
    assert (Hs1 : shard_at hash key s1 !! key
                  = Some (default 0 (shard_at hash key s !! key) + val start)).
    { change (shard_at hash key s1) with (shard_at hash key (written hash key (val start) s)).
      by apply first_lookup_written. }
    assert (Ht1 : total_local_sum s1 = total_local_sum s + val start).
    { change (total_local_sum s1) with (total_local_sum (written hash key (val start) s)).
      by apply first_total_local_sum_written. }
    rewrite Hg, Ht, Hw, Hr, Hk, Hs1, Ht1.
    unfold s1, updated, written; cbn [global_counter local_writes local_reads].
    repeat split; try lia.
    destruct k; cbn [default from_option id sum_from]; f_equal; lia.
Qed.

(** X15: on a well-formed store with at least one shard,
    [demo_hybrid_operation] returns after five hybrid calls on the key
    [resource_<thread_id>]: the key and [global_counter] both grow by
    the sum of the five drawn values, [local_writes] by five, and the
    gap [global_counter - total_local_sum] is as it was. *)
Theorem first_demo_hybrid_operation (thread_id : Z) (val : nat -> Z)
    (s : HybridDataStructure) :
  wf s ->
  1 <= num_shards s ->
  let r := demo_hybrid_operation hash thread_id val s in
  let key := resource_key thread_id in
  outcome_of r = Return tt
  /\ shard_at hash key (final r) !! key
     = Some (default 0 (shard_at hash key s !! key) + sum_from val 0 5)
  /\ global_counter (final r) = global_counter s + sum_from val 0 5
  /\ local_writes (final r) = local_writes s + 5
  /\ local_reads (final r) = local_reads s
  /\ difference (final r) = difference s.
Proof.
  intros Hwf Hn r key.
  destruct (first_hybrid_loop key val 5 0 s Hwf Hn) as (Ho & _ & Hg & Ht & Hw & Hr & Hk).
  fold (for_range 5 (fun i => hybrid_operation hash key (val i))) in *.
  change (for_range 5 (fun i => hybrid_operation hash key (val i)) s) with r in *.
  repeat split; try done.
  unfold difference. rewrite Hg, Ht. lia.
Qed.

(** X16: with the global lock free, [demo_critical_operation] returns
    after five updates by one: [global_counter] grows by five and
    nothing else changes. *)
Theorem first_demo_critical_operation (thread_id : Z) (s : HybridDataStructure) :
  global_lock s = false ->
  demo_critical_operation thread_id s = mkResult (Return tt) (updated 5 s) [].
Proof.
  intros Hg. unfold demo_critical_operation, for_range. cbn [for_from].
  unfold mbind, M_bind.
  do 5 (rewrite first_critical_update_ok by done; cbn [after]).
  unfold mret, M_ret. cbn [after app]. f_equal.
  unfold updated; cbn. f_equal. lia.
Qed.

(** The local loop, for any number of turns. *)
Lemma first_local_loop (env : nat -> demo_draw) k start s :
  wf s -> 1 <= num_shards s ->
  let r := for_from start k (fun i =>
    let key := user_key (draw_user (env i)) in
    if (draw_coin (env i) <? 0.5)%float
    then local_write hash key (draw_val (env i))
    else local_read hash key;; mret tt) s in
  outcome_of r = Return tt
  /\ local_reads (final r) + local_writes (final r)
     = local_reads s + local_writes s + Z.of_nat k
  /\ global_counter (final r) = global_counter s.
Proof.
  revert start s. induction k as [|k IH]; intros start s Hwf Hn r.
  - unfold r. cbn. repeat split; lia.
  - unfold r. cbn [for_from]. cbv zeta.
    destruct (draw_coin (env start) <? 0.5)%float.
    + rewrite (mbind_return _ _ _ _ _ _ (first_local_write_ok hash s _ _ Hwf Hn)).
      destruct (first_wf_written hash s (user_key (draw_user (env start)))
        (draw_val (env start)) Hwf) as [Hwf1 Hn1].
      destruct (IH (S start) _ Hwf1 ltac:(lia)) as (Ho & Hc & Hg).
      cbv zeta in Ho, Hc, Hg.
      rewrite outcome_after, final_after, Ho, Hc, Hg.
      unfold written; cbn. repeat split; lia.
    + assert (Hread : (local_read hash (user_key (draw_user (env start)));; mret tt) s
                      = mkResult (Return tt) (read_done s) []).
      { rewrite (mbind_return _ _ _ _ _ _ (first_local_read_ok s _ Hwf Hn)). done. }
      rewrite (mbind_return _ _ _ _ _ _ Hread).
      destruct (first_wf_read_done s Hwf) as [Hwf1 Hn1].
      destruct (IH (S start) _ Hwf1 ltac:(lia)) as (Ho & Hc & Hg).
      cbv zeta in Ho, Hc, Hg.
      rewrite outcome_after, final_after, Ho, Hc, Hg.
      unfold read_done; cbn. repeat split; lia.
Qed.

(** X17: on a well-formed store with at least one shard,
    [demo_local_operations] returns after five turns, each one read or
    one write: [local_reads + local_writes] grows by five and
    [global_counter] is as it was. *)
Theorem first_demo_local_operations (thread_id : Z) (env : nat -> demo_draw)
    (s : HybridDataStructure) :
  wf s ->
  1 <= num_shards s ->
  let r := demo_local_operations hash thread_id env s in
  outcome_of r = Return tt
  /\ local_reads (final r) + local_writes (final r)
     = local_reads s + local_writes s + 5
  /\ global_counter (final r) = global_counter s.
Proof.
  intros Hwf Hn r. apply (first_local_loop env 5 0 s Hwf Hn).
Qed.

End DemoFacts.

End FirstVersionFacts.

(** ** The two versions side by side: proofs *)

Section Versions.

Variable hash : string -> Z.

Lemma first_fields_wf (s : HybridDataStructure) :
  wf s -> FirstVersion.wf (first_fields s).
Proof. by intros (Hl & Hd & Hf & Hg). Qed.

(** X18: on a well-formed store with at least one shard and with
    integer values, each method of the later version does to the
    shards, the locks, [global_counter], [local_reads] and
    [local_writes] what the method of the first version does, and
    [local_read] returns the same. *)
Theorem versions_agree_on_integers (t1 t2 : float) (key : string) (v : Z)
    (s : HybridDataStructure) :
  wf s ->
  1 <= num_shards s ->
  FirstVersion.local_write hash key v (first_fields s)
    = mkResult (Return tt) (first_fields (final (local_write hash t1 key (PInt v) s))) []
  /\ FirstVersion.local_read hash key (first_fields s)
    = mkResult (outcome_of (local_read hash key s))
        (first_fields (final (local_read hash key s))) []
  /\ FirstVersion.critical_update v (first_fields s)
    = mkResult (Return tt) (first_fields (final (critical_update t2 (PInt v) s))) []
  /\ FirstVersion.hybrid_operation hash key v (first_fields s)
    = mkResult (Return tt)
        (first_fields (final (hybrid_operation hash t1 t2 key (PInt v) s))) [].
Proof.
  intros Hwf Hn. pose proof (first_fields_wf s Hwf) as Hwf1.
  assert (Hn1 : 1 <= FirstVersion.num_shards (first_fields s)) by done.
  rewrite FirstVersionFacts.first_local_write_ok by done.
  rewrite FirstVersionFacts.first_local_read_ok by done.
  rewrite FirstVersionFacts.first_critical_update_ok by apply Hwf.
  rewrite FirstVersionFacts.first_hybrid_operation_ok by done.
  rewrite local_write_ok, local_read_ok, hybrid_operation_ok by done.
  rewrite critical_update_ok by apply Hwf.
  done.
Qed.

End Versions.

(** ** Closed instances *)

Lemma wf_init_4 : wf (init 4).
Proof. repeat split; vm_compute; repeat constructor. Defined.

Lemma wf_init_neg : wf (init (-2)).
Proof. repeat split; vm_compute; repeat constructor. Defined.

Lemma first_wf_init_4 : FirstVersion.wf (FirstVersion.init 4).
Proof. repeat split; vm_compute; repeat constructor. Defined.

Lemma first_wf_init_neg : FirstVersion.wf (FirstVersion.init (-2)).
Proof. repeat split; vm_compute; repeat constructor. Defined.

Lemma gap_of_any_script_witness :
  outcome_of (run hash_neg_length mixed_script (init 4)) = Return tt
  /\ difference (final (run hash_neg_length mixed_script (init 4)))
     = total gap_change mixed_script.
Proof. apply (gap_of_any_script hash_neg_length 4 mixed_script). lia. Defined.

Lemma counters_count_calls_witness :
  let s := final (run hash_neg_length mixed_script (init 4)) in
  local_reads s = total is_read mixed_script
  /\ local_writes s = total is_int_write mixed_script
  /\ global_counter s = total counter_change mixed_script.
Proof. apply (counters_count_calls hash_neg_length 4 mixed_script). lia. Defined.

Lemma zero_shards_raise_witness :
  local_write hash_neg_length 0.5%float "a" (PInt 1) (init 0)
    = mkResult (Raise ZeroDivisionError) (init 0) []
  /\ local_read hash_neg_length "a" (init 0)
    = mkResult (Raise ZeroDivisionError) (init 0) []
  /\ hybrid_operation hash_neg_length 0.5%float 0.25%float "a" (PInt 1) (init 0)
    = mkResult (Raise ZeroDivisionError) (init 0) []
  /\ run hash_neg_length
       (HybridOperation 0.5%float 0.25%float "a" (PInt 1) :: mixed_script) (init 0)
    = mkResult (Raise ZeroDivisionError) (init 0) [].
Proof.
  apply (zero_shards_raise hash_neg_length 0.5%float 0.25%float "a" (PInt 1)
    mixed_script (init 0)). reflexivity.
Defined.

Lemma negative_shards_store_nothing_witness :
  let s := final (run hash_neg_length mixed_script (init (-2))) in
  outcome_of (run hash_neg_length mixed_script (init (-2))) = Return tt
  /\ local_data s = []
  /\ difference s = total counter_change mixed_script
  /\ local_read hash_neg_length "a" s
     = mkResult (Return None) s [index_error_line "local_read"].
Proof.
  apply (negative_shards_store_nothing hash_neg_length (-2) mixed_script "a"). lia.
Defined.

Lemma write_then_read_witness :
  let s' := final (local_write hash_neg_length 0.5%float "a" (PInt 10) (init 4)) in
  (forall old, outcome_of (local_read hash_neg_length "a" (init 4)) = Return old ->
     outcome_of (local_read hash_neg_length "a" s') = Return (Some (default 0 old + 10)))
  /\ ("b" <> "a" ->
      outcome_of (local_read hash_neg_length "b" s')
      = outcome_of (local_read hash_neg_length "b" (init 4))).
Proof.
  apply (write_then_read hash_neg_length 0.5%float "a" "b" 10 (init 4));
    [exact wf_init_4 | vm_compute; discriminate].
Defined.

Lemma keys_stay_in_their_shard_witness :
  let s := final (run hash_neg_length mixed_script (init 4)) in
  keys_in_place hash_neg_length s
  /\ forall p q shard1 shard2 key,
       local_data s !! p = Some shard1 -> local_data s !! q = Some shard2 ->
       is_Some (shard1 !! key) -> is_Some (shard2 !! key) -> p = q.
Proof. apply (keys_stay_in_their_shard hash_neg_length 4 mixed_script). lia. Defined.

Lemma stored_keys_are_writes_less_conflicts_witness :
  let s := final (run hash_neg_length mixed_script (init 4)) in
  stored_keys s = local_writes s - write_conflicts s.
Proof.
  apply (stored_keys_are_writes_less_conflicts hash_neg_length 4 mixed_script);
    [lia | reflexivity].
Defined.

Lemma written_keys_stay_witness :
  exists v',
    outcome_of (local_read hash_neg_length "a"
      (final (run hash_neg_length mixed_script
        (final (run hash_neg_length [LocalWrite 0.5%float "a" (PInt 10)] (init 4))))))
    = Return (Some v').
Proof.
  apply (written_keys_stay hash_neg_length 4 [LocalWrite 0.5%float "a" (PInt 10)]
    mixed_script "a" 10); [lia | reflexivity].
Defined.

Lemma worker_runs_the_queue_witness :
  let r := worker hash_neg_length "Thread-1" steady_env example_queue (init 4) in
  outcome_of r = Return tt
  /\ final r
     = (final (run hash_neg_length (calls_of steady_env 0 example_queue) (init 4)), []).
Proof.
  apply (worker_runs_the_queue hash_neg_length "Thread-1" steady_env example_queue
    (init 4)); [exact wf_init_4 | vm_compute; discriminate].
Defined.

Lemma worker_prints_no_error_witness :
  printed (worker hash_neg_length "Thread-1" steady_env example_queue (init 4))
  = started_line "Thread-1"
    :: ((fun tk : task => processing_line "Thread-1" tk.1.1) <$> example_queue)
    ++ [exiting_line "Thread-1"].
Proof.
  apply (worker_prints_no_error hash_neg_length "Thread-1" steady_env example_queue
    (init 4)); [exact wf_init_4 | vm_compute; discriminate | reflexivity].
Defined.

Lemma worker_counts_shard_tasks_witness :
  let s := (final (worker hash_neg_length "Thread-1" steady_env example_queue (init 4))).1 in
  local_reads s + local_writes s
  = Z.of_nat (length (filter (fun tk => shard_task tk = true) example_queue)).
Proof.
  apply (worker_counts_shard_tasks hash_neg_length "Thread-1" steady_env example_queue 4);
    [lia | reflexivity].
Defined.

Lemma worker_raises_on_zero_shards_witness :
  worker hash_neg_length "Thread-1" steady_env example_queue (init 0)
  = mkResult (Raise ZeroDivisionError) (init 0, tail example_queue)
      [started_line "Thread-1"; processing_line "Thread-1" "local"].
Proof.
  apply (worker_raises_on_zero_shards hash_neg_length "Thread-1" steady_env
    ("local", "a", PInt 10) (tail example_queue) (init 0)); reflexivity.
Defined.

Lemma worker_gap_witness :
  difference (final (worker hash_neg_length "Thread-1" steady_env example_queue (init 4))).1
  = queue_gap steady_env 0 example_queue.
Proof.
  apply (worker_gap hash_neg_length "Thread-1" steady_env example_queue 4). lia.
Defined.

Lemma local_write_needs_only_its_lock_witness :
  (local_locks store_with_global_lock_held
     !! shard_of hash_neg_length "a" store_with_global_lock_held = Some false ->
   local_write hash_neg_length 0.5%float "a" (PInt 10) store_with_global_lock_held
   = mkResult (Return tt)
       (written hash_neg_length 0.5%float "a" (PInt 10) store_with_global_lock_held) []
   /\ local_locks (written hash_neg_length 0.5%float "a" (PInt 10)
        store_with_global_lock_held)
      = local_locks store_with_global_lock_held
   /\ global_lock (written hash_neg_length 0.5%float "a" (PInt 10)
        store_with_global_lock_held)
      = global_lock store_with_global_lock_held)
  /\ (local_locks store_with_global_lock_held
        !! shard_of hash_neg_length "a" store_with_global_lock_held = Some true ->
      local_write hash_neg_length 0.5%float "a" (PInt 10) store_with_global_lock_held
      = mkResult Blocked store_with_global_lock_held []).
Proof.
  apply (local_write_needs_only_its_lock hash_neg_length 0.5%float "a" 10
    store_with_global_lock_held); [reflexivity | reflexivity | vm_compute; discriminate].
Defined.

Lemma hybrid_operation_is_not_atomic_witness :
  let r := hybrid_operation hash_neg_length 0.5%float 0.25%float "a" (PInt 10)
    store_with_global_lock_held in
  r = mkResult Blocked
        (written hash_neg_length 0.5%float "a" (PInt 10) store_with_global_lock_held) []
  /\ local_locks (final r) = local_locks store_with_global_lock_held
  /\ global_counter (final r) = global_counter store_with_global_lock_held
  /\ total_local_sum (final r) = total_local_sum store_with_global_lock_held + 10.
Proof.
  apply (hybrid_operation_is_not_atomic hash_neg_length 0.5%float 0.25%float "a" 10
    store_with_global_lock_held);
    [reflexivity | reflexivity | vm_compute; discriminate | reflexivity | reflexivity].
Defined.

Lemma first_version_faults_propagate_witness :
  let s := FirstVersion.init (-2) in
  let e := if bool_decide (FirstVersion.num_shards s = 0)
           then ZeroDivisionError else IndexError in
  FirstVersion.local_write hash_neg_length "a" 10 s = mkResult (Raise e) s []
  /\ FirstVersion.local_read hash_neg_length "a" s = mkResult (Raise e) s []
  /\ FirstVersion.hybrid_operation hash_neg_length "a" 10 s = mkResult (Raise e) s [].
Proof.
  apply (FirstVersionFacts.first_version_faults_propagate hash_neg_length "a" 10
    (FirstVersion.init (-2))); [exact first_wf_init_neg | vm_compute; discriminate].
Defined.

Lemma first_demo_hybrid_operation_witness :
  let s := FirstVersion.init 4 in
  let r := FirstVersion.demo_hybrid_operation hash_neg_length 3 FirstVersion.rising_val s in
  let key := FirstVersion.resource_key 3 in
  outcome_of r = Return tt
  /\ FirstVersion.shard_at hash_neg_length key (final r) !! key
     = Some (default 0 (FirstVersion.shard_at hash_neg_length key s !! key)
             + sum_from FirstVersion.rising_val 0 5)
  /\ FirstVersion.global_counter (final r)
     = FirstVersion.global_counter s + sum_from FirstVersion.rising_val 0 5
  /\ FirstVersion.local_writes (final r) = FirstVersion.local_writes s + 5
  /\ FirstVersion.local_reads (final r) = FirstVersion.local_reads s
  /\ FirstVersion.difference (final r) = FirstVersion.difference s.
Proof.
  apply (FirstVersionFacts.first_demo_hybrid_operation hash_neg_length 3
    FirstVersion.rising_val (FirstVersion.init 4));
    [exact first_wf_init_4 | vm_compute; discriminate].
Defined.

Lemma first_demo_critical_operation_witness :
  FirstVersion.demo_critical_operation 0 (FirstVersion.init 4)
  = mkResult (Return tt) (FirstVersion.updated 5 (FirstVersion.init 4)) [].
Proof.
  apply (FirstVersionFacts.first_demo_critical_operation 0 (FirstVersion.init 4)).
  reflexivity.
Defined.

Lemma first_demo_local_operations_witness :
  let s := FirstVersion.init 4 in
  let r := FirstVersion.demo_local_operations hash_neg_length 0 FirstVersion.steady_draw s in
  outcome_of r = Return tt
  /\ FirstVersion.local_reads (final r) + FirstVersion.local_writes (final r)
     = FirstVersion.local_reads s + FirstVersion.local_writes s + 5
  /\ FirstVersion.global_counter (final r) = FirstVersion.global_counter s.
Proof.
  apply (FirstVersionFacts.first_demo_local_operations hash_neg_length 0
    FirstVersion.steady_draw (FirstVersion.init 4));
    [exact first_wf_init_4 | vm_compute; discriminate].
Defined.

Lemma versions_agree_on_integers_witness :
  let s := init 4 in
  FirstVersion.local_write hash_neg_length "a" 10 (first_fields s)
    = mkResult (Return tt)
        (first_fields (final (local_write hash_neg_length 0.5%float "a" (PInt 10) s))) []
  /\ FirstVersion.local_read hash_neg_length "a" (first_fields s)
    = mkResult (outcome_of (local_read hash_neg_length "a" s))
        (first_fields (final (local_read hash_neg_length "a" s))) []
  /\ FirstVersion.critical_update 10 (first_fields s)
    = mkResult (Return tt)
        (first_fields (final (critical_update 0.25%float (PInt 10) s))) []
  /\ FirstVersion.hybrid_operation hash_neg_length "a" 10 (first_fields s)
    = mkResult (Return tt)
        (first_fields (final (hybrid_operation hash_neg_length 0.5%float 0.25%float
           "a" (PInt 10) s))) [].
Proof.
  apply (versions_agree_on_integers hash_neg_length 0.5%float 0.25%float "a" 10 (init 4));
    [exact wf_init_4 | vm_compute; discriminate].
Defined.
